(** * Scatter chart label engine: numeric helpers of the two chart variants

  The repository holds two implementations of the scatter/bubble chart page:
  - [src/unnamed/part_000]                 (module [Part000] below),
  - [src/ScatterChart_GoogleGem_index.tsx] (module [GoogleGem] below).

  Both are embedded function by function.  JavaScript numbers are modelled
  as real numbers together with the three non-finite values [NaN],
  [+Infinity] and [-Infinity]; arithmetic on finite numbers is exact
  (rounding and overflow of IEEE doubles are not modelled). *)

From Stdlib Require Import Reals Lra Lia List Bool String.
Import ListNotations.
Open Scope R_scope.

(** ** JavaScript values and the [Math] functions the charts use *)

Module JS.

(** A value of type [number]. *)
Inductive num : Type :=
| NaN
| PosInf
| NegInf
| Fin (r : R).

(** What a metric path can yield: [null], [undefined] (absent key) or a
    number. *)
Inductive jsval : Type :=
| Null
| Undefined
| Num (n : num).

Inductive scale : Type := linear | log.

Definition Rltb (x y : R) : bool := if Rlt_dec x y then true else false.
Definition Rleb (x y : R) : bool := if Rle_dec x y then true else false.
Definition Reqb (x y : R) : bool := if Req_dec_T x y then true else false.

(** [v !== null] *)
Definition notNull (v : jsval) : bool :=
  match v with Null => false | _ => true end.

(** [Number.isFinite(v)], returning the finite number when there is one. *)
Definition finite_of (v : jsval) : option R :=
  match v with Num (Fin r) => Some r | _ => None end.

Definition isFinite (v : jsval) : bool :=
  match finite_of v with Some _ => true | None => false end.

(** [v > 0]: [undefined] converts to [NaN], and [NaN > 0] is false. *)
Definition gt0 (v : jsval) : bool :=
  match v with
  | Num (Fin r) => Rltb 0 r
  | Num PosInf => true
  | _ => false
  end.

(** [Math.min(...(x :: xs))] and [Math.max(...(x :: xs))] on finite
    numbers. *)
Definition Math_min (x : R) (xs : list R) : R := fold_left Rmin xs x.
Definition Math_max (x : R) (xs : list R) : R := fold_left Rmax xs x.

(** [Math.log10]. *)
Definition log10 (x : R) : R := ln x / ln 10.

(** [a || b] on finite numbers: [b] when [a] is zero. *)
Definition or_num (a b : R) : R := if Reqb a 0 then b else a.

(** [values.filter(v => Number.isFinite(v))] *)
Fixpoint finiteValues (values : list jsval) : list R :=
  match values with
  | [] => []
  | v :: vs =>
      match finite_of v with
      | Some r => r :: finiteValues vs
      | None => finiteValues vs
      end
  end.

(** [finiteValues.filter(v => v > 0)] *)
Definition positiveValues (fs : list R) : list R :=
  filter (fun v => Rltb 0 v) fs.

End JS.
Import JS.

(** ** Zoom handlers (the same three lines in both files)

  [handleZoomIn  = () => setZoom(prev => Math.min(prev * 1.2, 5))]
  [handleZoomOut = () => setZoom(prev => Math.max(prev / 1.2, 0.5))]
  [handleResetZoom = () => setZoom(1)] *)

Module Zoom.

Inductive action : Type := ZoomIn | ZoomOut | ResetZoom.

Definition initial : R := 1.

Definition handleZoomIn (prev : R) : R := Rmin (prev * 1.2) 5.
Definition handleZoomOut (prev : R) : R := Rmax (prev / 1.2) 0.5.
Definition handleResetZoom (prev : R) : R := 1.

Definition step (zoom : R) (a : action) : R :=
  match a with
  | ZoomIn => handleZoomIn zoom
  | ZoomOut => handleZoomOut zoom
  | ResetZoom => handleResetZoom zoom
  end.

(** The state after the clicks [acts], oldest first. *)
Definition run (acts : list action) (zoom : R) : R :=
  fold_left step acts zoom.

Definition in_range (z : R) : Prop := 0.5 <= z <= 5.

End Zoom.

(** ** First variant: [src/unnamed/part_000] *)

Module Part000.

(** [{ x: number, y: number }] *)
Record Point : Type := mkPoint { pt_x : R; pt_y : R }.

(** [interface LabelPosition] *)
Record LabelPosition : Type := mkLabel {
  lp_id : string;
  lp_x : R;
  lp_y : R;
  lp_width : R;
  lp_height : R;
  lp_density : R;
  lp_dataX : option R;
  lp_dataY : option R
}.

(** [interface ToleranceSettings] *)
Record ToleranceSettings : Type := mkTolerances {
  labelCollisionRadius : R;
  labelForceStrength : R;
  labelYOffset : R;
  labelDensityThreshold : R;
  labelSimulationIterations : R;
  xAxisTitleOffset : R;
  yAxisTitleOffset : R;
  chartMarginTop : R;
  chartMarginRight : R;
  chartMarginBottom : R;
  chartMarginLeft : R
}.

Definition defaultTolerances : ToleranceSettings :=
  {| labelCollisionRadius := 5;
     labelForceStrength := 0.1;
     labelYOffset := -10;
     labelDensityThreshold := 18;
     labelSimulationIterations := 300;
     xAxisTitleOffset := 20;
     yAxisTitleOffset := 20;
     chartMarginTop := 20;
     chartMarginRight := 20;
     chartMarginBottom := 50;
     chartMarginLeft := 60 |}.

(** [allPoints.filter(p => Math.sqrt(Math.pow(p.x - point.x, 2) +
    Math.pow(p.y - point.y, 2)) < radius).length] *)
Definition calculateDensity
  (point : Point) (allPoints : list Point) (radius : R) : nat :=
  List.length
    (filter
       (fun p =>
          Rltb (sqrt ((pt_x p - pt_x point) ^ 2 + (pt_y p - pt_y point) ^ 2))
               radius)
       allPoints).

(** Rectangles given by their top-left corner. *)
Definition doLabelsOverlap (a b : LabelPosition) (padding : R) : bool :=
  negb
    (Rltb (lp_x a + lp_width a + padding) (lp_x b)
     || Rltb (lp_x b + lp_width b + padding) (lp_x a)
     || Rltb (lp_y a + lp_height a + padding) (lp_y b)
     || Rltb (lp_y b + lp_height b + padding) (lp_y a)).

(** The twelve candidate positions, in the order the loop tries them. *)
Definition positions (baseX baseY : R) : list Point :=
  [ mkPoint baseX (baseY - 15);
    mkPoint (baseX + 15) baseY;
    mkPoint baseX (baseY + 15);
    mkPoint (baseX - 15) baseY;
    mkPoint (baseX + 15) (baseY - 15);
    mkPoint (baseX + 15) (baseY + 15);
    mkPoint (baseX - 15) (baseY + 15);
    mkPoint (baseX - 15) (baseY - 15);
    mkPoint baseX (baseY - 25);
    mkPoint (baseX + 25) baseY;
    mkPoint baseX (baseY + 25);
    mkPoint (baseX - 25) baseY ].

Definition labelWidth (label : string) (fontSize : R) : R :=
  INR (String.length label) * fontSize * 0.6.

Definition labelHeight (fontSize : R) : R := fontSize + 4.

(** [newLabel] of the loop body: the candidate rectangle, centred at [pos]
    and stored by its top-left corner. *)
Definition newLabel (label : string) (fontSize : R) (pos : Point)
  : LabelPosition :=
  {| lp_id := label;
     lp_x := pt_x pos - labelWidth label fontSize / 2;
     lp_y := pt_y pos - labelHeight fontSize / 2;
     lp_width := labelWidth label fontSize;
     lp_height := labelHeight fontSize;
     lp_density := 0;
     lp_dataX := None;
     lp_dataY := None |}.

(** The first candidate for which
    [!existingLabels.some(existing => doLabelsOverlap(existing, newLabel,
    padding))], else [null]. *)
Definition findBestLabelPosition
  (baseX baseY : R) (label : string) (existingLabels : list LabelPosition)
  (fontSize padding : R) : option Point :=
  find
    (fun pos =>
       negb (existsb
               (fun existing =>
                  doLabelsOverlap existing (newLabel label fontSize pos)
                                  padding)
               existingLabels))
    (positions baseX baseY).

(** [normalizeValues], on finite numbers. [Math.log] is the natural
    logarithm.  The page's filter tests only [!== null], so the source can
    also be handed [undefined], [NaN] or an infinity, and then returns [NaN];
    such inputs are outside this definition, and every statement about it is
    a statement about lists of finite numbers. *)
Definition normalizeValues (values : list R) (scale : JS.scale) : list R :=
  match values with
  | [] => []
  | v0 :: vs =>
      match scale with
      | log =>
          let lg := fun v => ln (Rmax v 1) in
          let logValues := map lg values in
          let minLog := Math_min (lg v0) (map lg vs) in
          let maxLog := Math_max (lg v0) (map lg vs) in
          map (fun v => if Reqb maxLog minLog then 0
                        else (v - minLog) / (maxLog - minLog))
              logValues
      | linear =>
          let min := Math_min v0 vs in
          let max := Math_max v0 vs in
          map (fun v => if Reqb max min then 0
                        else (v - min) / (max - min))
              values
      end
  end.

(** [getDomain], on finite numbers. [Math.pow(10, e)] is [Rpower 10 e].
    As for [normalizeValues], the values the source returns [[NaN, NaN]] on
    ([undefined], [NaN]) are outside this definition. *)
Definition getDomain (values : list R) (scale : JS.scale) : R * R :=
  match values with
  | [] => (0, 1)
  | v0 :: vs =>
      match scale with
      | log =>
          let lg := fun v => ln (Rmax v 1) in
          let minLog := Math_min (lg v0) (map lg vs) in
          let maxLog := Math_max (lg v0) (map lg vs) in
          let padding := or_num ((maxLog - minLog) * 0.1) 0.1 in
          (Rpower 10 (minLog - padding), Rpower 10 (maxLog + padding))
      | linear =>
          let min := Math_min v0 vs in
          let max := Math_max v0 vs in
          let padding := or_num ((max - min) * 0.1) 0.1 in
          (min - padding, max + padding)
      end
  end.

Section TransformedData.

(** A source record, and the three metric values read off it:
    [getNestedValue(company, xMetricConfig?.path || '')] and its [y] and [z]
    siblings. *)
Variable Company : Type.
Variables xOf yOf zOf : Company -> jsval.
Variables xScale yScale zScale : JS.scale.

Record RawPoint : Type := mkRaw {
  rp_x : jsval;
  rp_y : jsval;
  rp_z : jsval;
  rp_company : Company
}.

Definition rawPoint (company : Company) : RawPoint :=
  {| rp_x := xOf company; rp_y := yOf company; rp_z := zOf company;
     rp_company := company |}.

(** [(!scale || scale === 'linear' || v > 0)]; a scale is never falsy. *)
Definition scaleOk (s : JS.scale) (v : jsval) : bool :=
  match s with linear => true | log => gt0 v end.

(** The predicate of [.filter(point => ...)]. *)
Definition keep (point : RawPoint) : bool :=
  notNull (rp_x point) && notNull (rp_y point) && notNull (rp_z point)
  && scaleOk xScale (rp_x point)
  && scaleOk yScale (rp_y point)
  && scaleOk zScale (rp_z point).

(** [validPoints]; [transformedData] maps it one to one, adding
    [normalizedZ] to each point. *)
Definition validPoints (data : list Company) : list RawPoint :=
  filter keep (map rawPoint data).

End TransformedData.

Arguments mkRaw {Company}.
Arguments rp_x {Company}.
Arguments rp_y {Company}.
Arguments rp_z {Company}.
Arguments rp_company {Company}.

(** The plot size [updateLabels] derives from the container rectangle. *)
Definition plotWidth (t : ToleranceSettings) (containerWidth : R) : R :=
  containerWidth - chartMarginLeft t - chartMarginRight t - 32.

Definition plotHeight (t : ToleranceSettings) (containerHeight : R) : R :=
  containerHeight - chartMarginTop t - chartMarginBottom t - 32.

(** [screenX] and [screenY] of [updateLabels]; the scale modes are in scope
    there but the expressions do not read them. *)
Definition screenX (t : ToleranceSettings) (xDomain : R * R) (plotWidth : R)
  (dataX : R) : R :=
  chartMarginLeft t
  + ((dataX - fst xDomain) / (snd xDomain - fst xDomain)) * plotWidth.

Definition screenY (t : ToleranceSettings) (yDomain : R * R) (plotHeight : R)
  (dataY : R) : R :=
  chartMarginTop t + plotHeight
  - ((dataY - fst yDomain) / (snd yDomain - fst yDomain)) * plotHeight.

(** [screenPoints], for the finite [(x, y)] pairs of [transformedData]; the
    domains are [getDomain] of the same data under the selected scales. *)
Definition screenPoints (t : ToleranceSettings) (xScale yScale : JS.scale)
  (containerWidth containerHeight : R) (transformedData : list (R * R))
  : list Point :=
  let xDomain := getDomain (map fst transformedData) xScale in
  let yDomain := getDomain (map snd transformedData) yScale in
  map (fun point =>
         mkPoint
           (screenX t xDomain (plotWidth t containerWidth) (fst point))
           (screenY t yDomain (plotHeight t containerHeight) (snd point)))
      transformedData.

(** What [setLabelElements] renders for one label. *)
Record Line : Type := mkLine {
  x1 : option R; y1 : option R; x2 : R; y2 : R
}.

Record Rect : Type := mkRect {
  rect_x : R; rect_y : R; rect_width : R; rect_height : R
}.

Record Text : Type := mkText { text_x : R; text_y : R; text_body : string }.

Record LabelGroup : Type := mkGroup {
  key : string;
  line : Line;
  rect : Rect;
  text : Text
}.

Definition fontSize : R := 10.

(** [label.dataX || 0] *)
Definition or0 (o : option R) : R :=
  match o with Some r => or_num r 0 | None => 0 end.

Definition labelCenterX (t : ToleranceSettings) (label : LabelPosition) : R :=
  lp_x label + chartMarginLeft t.

Definition labelCenterY (t : ToleranceSettings) (label : LabelPosition) : R :=
  lp_y label + chartMarginTop t.

Definition distance (t : ToleranceSettings) (label : LabelPosition) : R :=
  let dx := labelCenterX t label - or0 (lp_dataX label) in
  let dy := labelCenterY t label - or0 (lp_dataY label) in
  sqrt (dx * dx + dy * dy).

(** The callback of [simulatedLabels.map(...)]: [null] when
    [distance < 15]. *)
Definition renderLabel (t : ToleranceSettings) (label : LabelPosition)
  : option LabelGroup :=
  if Rltb (distance t label) 15 then None
  else
    Some
      {| key := lp_id label;
         line := {| x1 := lp_dataX label; y1 := lp_dataY label;
                    x2 := labelCenterX t label; y2 := labelCenterY t label |};
         rect := {| rect_x := labelCenterX t label - lp_width label / 2;
                    rect_y := labelCenterY t label - lp_height label / 2;
                    rect_width := lp_width label;
                    rect_height := lp_height label |};
         text := {| text_x := labelCenterX t label;
                    text_y := labelCenterY t label + fontSize / 2 - 1;
                    text_body := lp_id label |} |}.

(** [simulatedLabels.map(...).filter(Boolean)] *)
Fixpoint labelElements (t : ToleranceSettings)
  (simulatedLabels : list LabelPosition) : list LabelGroup :=
  match simulatedLabels with
  | [] => []
  | label :: rest =>
      match renderLabel t label with
      | Some g => g :: labelElements t rest
      | None => labelElements t rest
      end
  end.

(** The test [sortedData]'s [.filter((_, i) => ...)] makes on the screen
    point [screenPoints[i]]. *)
Definition onPlot (t : ToleranceSettings) (containerWidth containerHeight : R)
  (point : Point) : bool :=
  Rleb (chartMarginLeft t) (pt_x point)
  && Rleb (pt_x point) (containerWidth - chartMarginRight t - 16)
  && Rleb (chartMarginTop t) (pt_y point)
  && Rleb (pt_y point) (containerHeight - chartMarginBottom t - 16).

End Part000.

(** ** Second variant: [src/ScatterChart_GoogleGem_index.tsx] *)

Module GoogleGem.

(** [{ x: number, y: number }] *)
Record Point : Type := mkPoint { pt_x : R; pt_y : R }.

(** [interface LabelPosition]; [x] and [y] are the centre of the label. *)
Record LabelPosition : Type := mkLabel {
  lp_id : string;
  lp_x : R;
  lp_y : R;
  lp_width : R;
  lp_height : R;
  lp_density : R
}.

(** The counting loop of [calculateDensity]. *)
Definition countWithin (point : Point) (radius : R) (count : nat) (p : Point)
  : nat :=
  let dx := pt_x p - pt_x point in
  let dy := pt_y p - pt_y point in
  if Rltb (dx * dx + dy * dy) (radius * radius) then S count else count.

(** [return count > 0 ? count - 1 : 0] *)
Definition calculateDensity
  (point : Point) (allPoints : list Point) (radius : R) : nat :=
  let count := fold_left (countWithin point radius) allPoints 0%nat in
  if (0 <? count)%nat then (count - 1)%nat else 0%nat.

(** Rectangles given by their centre. *)
Definition doLabelsOverlap (a b : LabelPosition) (padding : R) : bool :=
  negb
    (Rltb (lp_x a + lp_width a / 2 + padding) (lp_x b - lp_width b / 2)
     || Rltb (lp_x b + lp_width b / 2 + padding) (lp_x a - lp_width a / 2)
     || Rltb (lp_y a + lp_height a / 2 + padding) (lp_y b - lp_height b / 2)
     || Rltb (lp_y b + lp_height b / 2 + padding) (lp_y a - lp_height a / 2)).

(** [potentialOffsets], as [(dx, dy)] pairs in the order the loop tries
    them. *)
Definition potentialOffsets : list (R * R) :=
  [ (0, -15); (15, 0); (0, 15); (-15, 0);
    (12, -12); (12, 12); (-12, 12); (-12, -12);
    (0, -25); (25, 0); (0, 25); (-25, 0) ].

Definition labelWidth (label : string) (fontSize : R) : R :=
  INR (String.length label) * fontSize * 0.6.

Definition labelHeight (fontSize : R) : R := fontSize + 4.

(** [newLabelRect] of the loop body. *)
Definition newLabelRect (label : string) (fontSize : R) (potential : Point)
  : LabelPosition :=
  {| lp_id := label;
     lp_x := pt_x potential;
     lp_y := pt_y potential;
     lp_width := labelWidth label fontSize;
     lp_height := labelHeight fontSize;
     lp_density := 0 |}.

(** The candidate centres [(baseX + dx, baseY + dy)]. *)
Definition potentialPositions (baseX baseY : R) : list Point :=
  map (fun offset => mkPoint (baseX + fst offset) (baseY + snd offset))
      potentialOffsets.

(** The inner loop sets [overlaps] as soon as one existing label overlaps;
    the outer loop returns the first candidate that leaves it unset. *)
Definition findBestLabelPosition
  (baseX baseY : R) (label : string) (existingLabels : list LabelPosition)
  (fontSize padding : R) : option Point :=
  find
    (fun potential =>
       negb (existsb
               (fun existing =>
                  doLabelsOverlap existing
                                  (newLabelRect label fontSize potential)
                                  padding)
               existingLabels))
    (potentialPositions baseX baseY).

(** [(Number.isFinite(v) && v > 0) ? 0.5 : 0] *)
Definition halfIfPositive (v : jsval) : R :=
  if isFinite v && gt0 v then 0.5 else 0.

(** [Math.max(0, Math.min(1, t))] *)
Definition clamp01 (t : R) : R := Rmax 0 (Rmin 1 t).

Definition normalizeValues (values : list jsval) (scale : JS.scale) : list R :=
  match values with
  | [] => []
  | _ =>
      match finiteValues values with
      | [] => map (fun _ => 0.5) values
      | f0 :: fs =>
          match scale with
          | log =>
              match positiveValues (f0 :: fs) with
              | [] => map halfIfPositive values
              | p0 :: ps =>
                  let minLog := log10 (Math_min p0 ps) in
                  let maxLog := log10 (Math_max p0 ps) in
                  if Reqb minLog maxLog then map halfIfPositive values
                  else
                    map (fun v =>
                           match finite_of v with
                           | None => 0
                           | Some r =>
                               if Rleb r 0 then 0
                               else clamp01 ((log10 r - minLog)
                                             / (maxLog - minLog))
                           end)
                        values
              end
          | linear =>
              let min := Math_min f0 fs in
              let max := Math_max f0 fs in
              if Reqb min max then
                map (fun v => if isFinite v then 0.5 else 0) values
              else
                map (fun v =>
                       match finite_of v with
                       | None => 0
                       | Some r => clamp01 ((r - min) / (max - min))
                       end)
                    values
          end
      end
  end.

(** One end of an axis domain: the string ['auto'] or a number. *)
Inductive bound : Type :=
| Auto
| Bound (r : R).

(** [1e-9] *)
Definition tiny : R := / 1000000000.

Definition getDomain (values : list jsval) (scale : JS.scale)
  : bound * bound :=
  match finiteValues values with
  | [] => (Auto, Auto)
  | f0 :: fs =>
      match scale with
      | log =>
          match positiveValues (f0 :: fs) with
          | [] => (Auto, Auto)
          | p0 :: ps =>
              let minVal := Math_min p0 ps in
              let maxVal := Math_max p0 ps in
              let domainMin := minVal / 1.5 in
              let domainMax := maxVal * 1.5 in
              (Bound (if Rltb 0 domainMin then domainMin else tiny),
               Bound domainMax)
          end
      | linear =>
          let minVal := Math_min f0 fs in
          let maxVal := Math_max f0 fs in
          if Reqb minVal maxVal then
            let padding := or_num (Rabs (minVal * 0.1)) 1 in
            (Bound (minVal - padding), Bound (minVal + padding))
          else
            let range := maxVal - minVal in
            let padding := range * 0.1 in
            (Bound (minVal - padding), Bound (maxVal + padding))
      end
  end.

Section TransformedData.

(** A source record, and the three metric values read off it:
    [getNestedValue(company, xMetricConfig?.path || '')] and its [y] and [z]
    siblings. *)
Variable Company : Type.
Variables xOf yOf zOf : Company -> jsval.
Variables xScale yScale zScale : JS.scale.

Record RawPoint : Type := mkRaw {
  rp_x : jsval;
  rp_y : jsval;
  rp_z : jsval;
  rp_company : Company
}.

(** [interface ScatterPoint] *)
Record ScatterPoint : Type := mkScatter {
  sp_point : RawPoint;
  normalizedZ : R
}.

Definition rawPoint (company : Company) : RawPoint :=
  {| rp_x := xOf company; rp_y := yOf company; rp_z := zOf company;
     rp_company := company |}.

(** [(scale === 'linear' || v > 0)] *)
Definition scaleOk (s : JS.scale) (v : jsval) : bool :=
  match s with linear => true | log => gt0 v end.

(** The predicate of [.filter(point => ...)]. *)
Definition keep (point : RawPoint) : bool :=
  notNull (rp_x point) && notNull (rp_y point) && notNull (rp_z point)
  && isFinite (rp_x point) && isFinite (rp_y point) && isFinite (rp_z point)
  && scaleOk xScale (rp_x point)
  && scaleOk yScale (rp_y point)
  && scaleOk zScale (rp_z point).

Definition validPoints (data : list Company) : list RawPoint :=
  filter keep (map rawPoint data).

(** [validPoints.map((point, index) => ...)] with
    [normalizedZ: normalizedZValues[index] ?? 0.5]. *)
Fixpoint withNormalizedZ (index : nat) (normalizedZValues : list R)
  (points : list RawPoint) : list ScatterPoint :=
  match points with
  | [] => []
  | point :: rest =>
      mkScatter point (nth index normalizedZValues 0.5)
      :: withNormalizedZ (S index) normalizedZValues rest
  end.

Definition transformedData (data : list Company) : list ScatterPoint :=
  let valid := validPoints data in
  let zValues := map rp_z valid in
  let normalizedZValues := normalizeValues zValues zScale in
  withNormalizedZ 0 normalizedZValues valid.

End TransformedData.

Arguments mkRaw {Company}.
Arguments rp_x {Company}.
Arguments rp_y {Company}.
Arguments rp_z {Company}.
Arguments rp_company {Company}.
Arguments mkScatter {Company}.
Arguments sp_point {Company}.
Arguments normalizedZ {Company}.

(** [!Number.isFinite(dMin) || !Number.isFinite(dMax) || dMax === dMin];
    ['auto'] is not a finite number. *)
Definition mapX (xDomain : bound * bound) (xScale : JS.scale)
  (marginLeft vbWidth : R) (dataX : R) : R :=
  match xDomain with
  | (Bound dMin, Bound dMax) =>
      if Reqb dMax dMin then marginLeft
      else
        match xScale with
        | log =>
            if Rleb dataX 0 || Rleb dMin 0 || Rleb dMax 0 then marginLeft
            else
              let logMin := log10 dMin in
              let logMax := log10 dMax in
              if Reqb logMin logMax then marginLeft
              else
                marginLeft
                + ((log10 dataX - logMin) / (logMax - logMin)) * vbWidth
        | linear =>
            marginLeft + ((dataX - dMin) / (dMax - dMin)) * vbWidth
        end
  | _ => marginLeft
  end.

Definition mapY (yDomain : bound * bound) (yScale : JS.scale)
  (marginTop vbHeight : R) (dataY : R) : R :=
  match yDomain with
  | (Bound dMin, Bound dMax) =>
      if Reqb dMax dMin then marginTop + vbHeight
      else
        match yScale with
        | log =>
            if Rleb dataY 0 || Rleb dMin 0 || Rleb dMax 0
            then marginTop + vbHeight
            else
              let logMin := log10 dMin in
              let logMax := log10 dMax in
              if Reqb logMin logMax then marginTop + vbHeight
              else
                marginTop + vbHeight
                - (((log10 dataY - logMin) / (logMax - logMin)) * vbHeight)
        | linear =>
            marginTop + vbHeight
            - (((dataY - dMin) / (dMax - dMin)) * vbHeight)
        end
  | _ => marginTop + vbHeight
  end.

(** A label as [createLabelSimulation] hands it back:
    [LabelPosition & { text, dataX, dataY }]. *)
Record SimulatedLabel : Type := mkSim {
  sl_id : string;
  sl_text : string;
  sl_x : R;
  sl_y : R;
  sl_width : R;
  sl_height : R;
  sl_dataX : R;
  sl_dataY : R
}.

(** What [setLabelElements] renders for one label. *)
Record Line : Type := mkLine { x1 : R; y1 : R; x2 : R; y2 : R }.

Record Rect : Type := mkRect {
  rect_x : R; rect_y : R; rect_width : R; rect_height : R
}.

Record Text : Type := mkText { text_x : R; text_y : R; text_body : string }.

(** The [<g>] element; [line] is [None] when [shouldShowLine] is false. *)
Record LabelGroup : Type := mkGroup {
  key : string;
  line : option Line;
  rect : Rect;
  text : Text
}.

Definition distance (label : SimulatedLabel) : R :=
  let dx := sl_x label - sl_dataX label in
  let dy := sl_y label - sl_dataY label in
  sqrt (dx * dx + dy * dy).

(** [showLine && distance > 5], with [showLine = true]. *)
Definition shouldShowLine (label : SimulatedLabel) : bool :=
  true && Rltb 5 (distance label).

Definition renderLabel (label : SimulatedLabel) : LabelGroup :=
  let finalX := sl_x label in
  let finalY := sl_y label in
  {| key := sl_id label;
     line := if shouldShowLine label
             then Some {| x1 := sl_dataX label; y1 := sl_dataY label;
                          x2 := finalX; y2 := finalY |}
             else None;
     rect := {| rect_x := finalX - sl_width label / 2 - 2;
                rect_y := finalY - sl_height label / 2 - 1;
                rect_width := sl_width label + 4;
                rect_height := sl_height label + 2 |};
     text := {| text_x := finalX; text_y := finalY;
                text_body := sl_text label |} |}.

(** [simulatedLabels.map(label => ...)] *)
Definition labelElements (simulatedLabels : list SimulatedLabel)
  : list LabelGroup :=
  map renderLabel simulatedLabels.

End GoogleGem.

(** ** Predicates the statements below are phrased with *)

Module Spec.

(** A normalized value. *)
Definition in01 (r : R) : Prop := 0 <= r <= 1.

(** All members of a list are the same number. *)
Definition allEqual (l : list R) : Prop :=
  forall a b, In a l -> In b l -> a = b.

End Spec.

(** ** Further predicates, for the properties beyond the normalizer *)

Module Terms.

(** [m] is the least, [M] the greatest member of [l]. *)
Definition isMin (m : R) (l : list R) : Prop :=
  In m l /\ forall x, In x l -> m <= x.

Definition isMax (M : R) (l : list R) : Prop :=
  In M l /\ forall x, In x l -> x <= M.

(** Where a value sits in an axis domain, as a fraction of its length. *)
Definition fraction (scale : JS.scale) (lo hi v : R) : R :=
  match scale with
  | linear => (v - lo) / (hi - lo)
  | log => (log10 v - log10 lo) / (log10 hi - log10 lo)
  end.

(** A proper axis domain for a scale mode, and a value it can place. *)
Definition properDomain (scale : JS.scale) (lo hi : R) : Prop :=
  lo < hi /\ (scale = log -> 0 < lo).

Definition placeable (scale : JS.scale) (v : R) : Prop :=
  scale = log -> 0 < v.

(** Euclidean distance between [(x1, y1)] and [(x2, y2)]. *)
Definition dist (x1 y1 x2 y2 : R) : R :=
  sqrt ((x1 - x2) * (x1 - x2) + (y1 - y2) * (y1 - y2)).

(** The list without its [i]-th member. *)
Definition removeAt {A : Type} (i : nat) (l : list A) : list A :=
  firstn i l ++ skipn (S i) l.

(** [p] is closer to [point] than [radius]. *)
Definition nearGem (point : GoogleGem.Point) (radius : R)
  (p : GoogleGem.Point) : bool :=
  Rltb (dist (GoogleGem.pt_x p) (GoogleGem.pt_y p)
             (GoogleGem.pt_x point) (GoogleGem.pt_y point))
       radius.

Definition nearPart (point : Part000.Point) (radius : R)
  (p : Part000.Point) : bool :=
  Rltb (dist (Part000.pt_x p) (Part000.pt_y p)
             (Part000.pt_x point) (Part000.pt_y point))
       radius.

(** [(u, v)] lies in the rectangle of a label grown by [margin] on every
    side; the second variant stores the centre of a label, the first its
    top-left corner. *)
Definition insideGem (l : GoogleGem.LabelPosition) (margin u v : R) : Prop :=
  GoogleGem.lp_x l - GoogleGem.lp_width l / 2 - margin <= u
  /\ u <= GoogleGem.lp_x l + GoogleGem.lp_width l / 2 + margin
  /\ GoogleGem.lp_y l - GoogleGem.lp_height l / 2 - margin <= v
  /\ v <= GoogleGem.lp_y l + GoogleGem.lp_height l / 2 + margin.

Definition insidePart (l : Part000.LabelPosition) (margin u v : R) : Prop :=
  Part000.lp_x l - margin <= u
  /\ u <= Part000.lp_x l + Part000.lp_width l + margin
  /\ Part000.lp_y l - margin <= v
  /\ v <= Part000.lp_y l + Part000.lp_height l + margin.





End Terms.

(** ** Basic facts about the comparison functions *)

Lemma Rltb_true (x y : R) : Rltb x y = true <-> x < y.
Proof. unfold Rltb. destruct (Rlt_dec x y); split; intros; try easy. Qed.

Lemma Rltb_false (x y : R) : Rltb x y = false <-> y <= x.
Proof.
unfold Rltb. destruct (Rlt_dec x y); split; intros; try easy; lra.
Qed.

Lemma Rleb_true (x y : R) : Rleb x y = true <-> x <= y.
Proof. unfold Rleb. destruct (Rle_dec x y); split; intros; try easy. Qed.

Lemma Rleb_false (x y : R) : Rleb x y = false <-> y < x.
Proof.
unfold Rleb. destruct (Rle_dec x y); split; intros; try easy; lra.
Qed.

Lemma Reqb_true (x y : R) : Reqb x y = true <-> x = y.
Proof. unfold Reqb. destruct (Req_dec_T x y); split; intros; try easy. Qed.

Lemma Reqb_false (x y : R) : Reqb x y = false <-> x <> y.
Proof. unfold Reqb. destruct (Req_dec_T x y); split; intros; try easy. Qed.

(** ** Zoom *)

Lemma zoom_step_in_range (z : R) (a : Zoom.action) :
Zoom.in_range z -> Zoom.in_range (Zoom.step z a).
Proof.
unfold Zoom.in_range. intros Hz.
destruct a; simpl;
  unfold Zoom.handleZoomIn, Zoom.handleZoomOut, Zoom.handleResetZoom.
- unfold Rmin. destruct (Rle_dec (z * 1.2) 5); lra.
- unfold Rmax. destruct (Rle_dec (z / 1.2) 0.5); lra.
- lra.
Qed.

Lemma zoom_run_in_range (acts : list Zoom.action) :
forall z, Zoom.in_range z -> Zoom.in_range (Zoom.run acts z).
Proof.
induction acts as [|a acts IH]; intros z Hz; simpl.
- exact Hz.
- apply IH. now apply zoom_step_in_range.
Qed.

(** C10. Starting from the initial zoom 1, after any finite sequence of
  zoom-in, zoom-out and reset clicks the zoom factor lies in [0.5, 5]. *)
Theorem zoom_always_in_range (acts : list Zoom.action) :
0.5 <= Zoom.run acts Zoom.initial <= 5.
Proof.
apply (zoom_run_in_range acts Zoom.initial).
unfold Zoom.in_range, Zoom.initial. lra.
Qed.

(** ** [Math.min] and [Math.max] over a non-empty list *)

Lemma fold_Rmin_le_acc (xs : list R) :
  forall a, fold_left Rmin xs a <= a.
Proof.
  induction xs as [|x xs IH]; intros a; simpl.
  - lra.
  - eapply Rle_trans; [apply IH | apply Rmin_l].
Qed.

Lemma fold_Rmax_ge_acc (xs : list R) :
  forall a, a <= fold_left Rmax xs a.
Proof.
  induction xs as [|x xs IH]; intros a; simpl.
  - lra.
  - eapply Rle_trans; [apply Rmax_l | apply IH].
Qed.

Lemma Math_min_le (xs : list R) :
  forall x y, In y (x :: xs) -> Math_min x xs <= y.
Proof.
  unfold Math_min.
  induction xs as [|a xs IH]; intros x y Hin; simpl in *.
  - destruct Hin as [<- | []]. lra.
  - destruct Hin as [<- | [<- | Hin]].
    + eapply Rle_trans; [apply fold_Rmin_le_acc | apply Rmin_l].
    + eapply Rle_trans; [apply fold_Rmin_le_acc | apply Rmin_r].
    + apply IH. now right.
Qed.

Lemma Math_max_ge (xs : list R) :
  forall x y, In y (x :: xs) -> y <= Math_max x xs.
Proof.
  unfold Math_max.
  induction xs as [|a xs IH]; intros x y Hin; simpl in *.
  - destruct Hin as [<- | []]. lra.
  - destruct Hin as [<- | [<- | Hin]].
    + eapply Rle_trans; [apply Rmax_l | apply fold_Rmax_ge_acc].
    + eapply Rle_trans; [apply Rmax_r | apply fold_Rmax_ge_acc].
    + apply IH. now right.
Qed.

Lemma Math_min_In (xs : list R) :
  forall x, In (Math_min x xs) (x :: xs).
Proof.
  unfold Math_min.
  induction xs as [|a xs IH]; intros x; simpl.
  - now left.
  - destruct (IH (Rmin x a)) as [H | H].
    + rewrite <- H. unfold Rmin. destruct (Rle_dec x a); auto.
    + auto.
Qed.

Lemma Math_max_In (xs : list R) :
  forall x, In (Math_max x xs) (x :: xs).
Proof.
  unfold Math_max.
  induction xs as [|a xs IH]; intros x; simpl.
  - now left.
  - destruct (IH (Rmax x a)) as [H | H].
    + rewrite <- H. unfold Rmax. destruct (Rle_dec x a); auto.
    + auto.
Qed.

Lemma Math_min_le_max (x : R) (xs : list R) :
  Math_min x xs <= Math_max x xs.
Proof.
  apply Math_min_le. apply Math_max_In.
Qed.

(** When all elements agree, minimum and maximum are that element. *)
Lemma Math_min_const (x : R) (xs : list R) :
  (forall y, In y xs -> y = x) -> Math_min x xs = x.
Proof.
  intros H. destruct (Math_min_In xs x) as [E | E]; [now symmetry | now apply H].
Qed.

Lemma Math_max_const (x : R) (xs : list R) :
  (forall y, In y xs -> y = x) -> Math_max x xs = x.
Proof.
  intros H. destruct (Math_max_In xs x) as [E | E]; [now symmetry | now apply H].
Qed.

Lemma frac_in01 (lo hi v : R) :
  lo <= v <= hi -> lo < hi -> 0 <= (v - lo) / (hi - lo) <= 1.
Proof.
  intros [H1 H2] Hlt.
  assert (Hd : 0 < hi - lo) by lra.
  split.
  - apply Rmult_le_pos; [lra | left; now apply Rinv_0_lt_compat].
  - apply (Rmult_le_reg_r (hi - lo)); [exact Hd|].
    unfold Rdiv. rewrite Rmult_assoc, Rinv_l by lra. lra.
Qed.

Lemma clamp01_in01 (t : R) : 0 <= GoogleGem.clamp01 t <= 1.
Proof.
  unfold GoogleGem.clamp01, Rmax, Rmin.
  destruct (Rle_dec 1 t); destruct (Rle_dec 0 _); lra.
Qed.

Lemma clamp01_id (t : R) : 0 <= t <= 1 -> GoogleGem.clamp01 t = t.
Proof.
  intros H. unfold GoogleGem.clamp01, Rmax, Rmin.
  destruct (Rle_dec 1 t); destruct (Rle_dec 0 _); lra.
Qed.

(** ** [normalizeValues] *)

Lemma rescale_in01 (l0 : R) (ls : list R) :
  Forall Spec.in01
    (map (fun v =>
            if Reqb (Math_max l0 ls) (Math_min l0 ls) then 0
            else (v - Math_min l0 ls) / (Math_max l0 ls - Math_min l0 ls))
         (l0 :: ls)).
Proof.
  apply Forall_forall. intros r Hr.
  apply in_map_iff in Hr. destruct Hr as [v [<- Hv]].
  unfold Spec.in01.
  destruct (Reqb _ _) eqn:E.
  - lra.
  - apply Reqb_false in E.
    pose proof (Math_min_le ls l0 v Hv).
    pose proof (Math_max_ge ls l0 v Hv).
    apply frac_in01; lra.
Qed.

Lemma part000_normalizeValues_in01 (values : list R) (scale : JS.scale) :
  Forall Spec.in01 (Part000.normalizeValues values scale).
Proof.
  destruct values as [|v0 vs]; [constructor|].
  destruct scale; unfold Part000.normalizeValues.
  - apply rescale_in01.
  - change (map (fun v => ln (Rmax v 1)) (v0 :: vs))
      with (ln (Rmax v0 1) :: map (fun v => ln (Rmax v 1)) vs).
    apply (rescale_in01 (ln (Rmax v0 1)) (map (fun v => ln (Rmax v 1)) vs)).
Qed.

Lemma halfIfPositive_in01 (v : jsval) : Spec.in01 (GoogleGem.halfIfPositive v).
Proof.
  unfold GoogleGem.halfIfPositive, Spec.in01.
  destruct (isFinite v && gt0 v); lra.
Qed.

Lemma googlegem_normalizeValues_in01 (values : list jsval) (scale : JS.scale) :
  Forall Spec.in01 (GoogleGem.normalizeValues values scale).
Proof.
  unfold GoogleGem.normalizeValues.
  destruct values as [|v0 vs]; [constructor|].
  set (values := v0 :: vs).
  destruct (finiteValues values) as [|f0 fs].
  { apply Forall_forall. intros r Hr. apply in_map_iff in Hr.
    destruct Hr as [? [<- _]]. unfold Spec.in01; lra. }
  destruct scale.
  - destruct (Reqb _ _).
    + apply Forall_forall. intros r Hr. apply in_map_iff in Hr.
      destruct Hr as [v [<- _]]. unfold Spec.in01.
      destruct (isFinite v); lra.
    + apply Forall_forall. intros r Hr. apply in_map_iff in Hr.
      destruct Hr as [v [<- _]].
      destruct (finite_of v); [apply clamp01_in01 | unfold Spec.in01; lra].
  - destruct (positiveValues (f0 :: fs)) as [|p0 ps].
    { apply Forall_forall. intros r Hr. apply in_map_iff in Hr.
      destruct Hr as [v [<- _]]. apply halfIfPositive_in01. }
    destruct (Reqb _ _).
    + apply Forall_forall. intros r Hr. apply in_map_iff in Hr.
      destruct Hr as [v [<- _]]. apply halfIfPositive_in01.
    + apply Forall_forall. intros r Hr. apply in_map_iff in Hr.
      destruct Hr as [v [<- _]].
      destruct (finite_of v) as [x|]; [|unfold Spec.in01; lra].
      destruct (Rleb x 0); [unfold Spec.in01; lra | apply clamp01_in01].
Qed.

Lemma allEqual_min_max (x : R) (xs : list R) :
  Spec.allEqual (x :: xs) -> Math_min x xs = x /\ Math_max x xs = x.
Proof.
  intros H. split.
  - apply Math_min_const. intros y Hy. apply H; simpl; auto.
  - apply Math_max_const. intros y Hy. apply H; simpl; auto.
Qed.

Lemma part000_normalizeValues_equal (values : list R) (scale : JS.scale) :
  Spec.allEqual values ->
  Part000.normalizeValues values scale = map (fun _ => 0) values.
Proof.
  intros H. destruct values as [|v0 vs]; [reflexivity|].
  destruct scale; unfold Part000.normalizeValues.
  - destruct (allEqual_min_max v0 vs H) as [-> ->].
    replace (Reqb v0 v0) with true by (symmetry; now apply Reqb_true).
    reflexivity.
  - set (lg := fun v => ln (Rmax v 1)).
    assert (Hl : Spec.allEqual (lg v0 :: map lg vs)).
    { intros a b Ha Hb.
      change (lg v0 :: map lg vs) with (map lg (v0 :: vs)) in Ha, Hb.
      apply in_map_iff in Ha, Hb.
      destruct Ha as [a' [<- Ha]]. destruct Hb as [b' [<- Hb]].
      f_equal. now apply H. }
    destruct (allEqual_min_max _ _ Hl) as [Emin Emax].
    cbv zeta. fold lg. change (ln (Rmax v0 1)) with (lg v0).
    rewrite Emin, Emax.
    replace (Reqb (lg v0) (lg v0)) with true by (symmetry; now apply Reqb_true).
    now rewrite map_map.
Qed.

Lemma finiteValues_In (values : list jsval) (r : R) :
  In (Num (Fin r)) values -> In r (finiteValues values).
Proof.
  induction values as [|v vs IH]; simpl; [easy|].
  intros [-> | H].
  - simpl. now left.
  - destruct (finite_of v); [right|]; now apply IH.
Qed.

Lemma googlegem_normalizeValues_linear_equal (values : list jsval) :
  Spec.allEqual (finiteValues values) ->
  forall i r,
    nth_error values i = Some (Num (Fin r)) ->
    nth_error (GoogleGem.normalizeValues values linear) i = Some 0.5.
Proof.
  intros H i r Hi.
  assert (Hin : In r (finiteValues values))
    by (apply finiteValues_In; eapply nth_error_In; eauto).
  unfold GoogleGem.normalizeValues.
  destruct values as [|v0 vs]; [now destruct i|].
  set (values := v0 :: vs) in *.
  destruct (finiteValues values) as [|f0 fs]; [destruct Hin|].
  destruct (allEqual_min_max f0 fs H) as [-> ->].
  replace (Reqb f0 f0) with true by (symmetry; now apply Reqb_true).
  rewrite nth_error_map, Hi. reflexivity.
Qed.

Lemma googlegem_normalizeValues_log_equal (values : list jsval) :
  Spec.allEqual (positiveValues (finiteValues values)) ->
  forall i r,
    nth_error values i = Some (Num (Fin r)) ->
    nth_error (GoogleGem.normalizeValues values log) i
    = Some (if Rltb 0 r then 0.5 else 0).
Proof.
  intros H i r Hi.
  assert (Hin : In r (finiteValues values))
    by (apply finiteValues_In; eapply nth_error_In; eauto).
  assert (Hhalf : nth_error (map GoogleGem.halfIfPositive values) i
                  = Some (if Rltb 0 r then 0.5 else 0)).
  { rewrite nth_error_map, Hi. reflexivity. }
  unfold GoogleGem.normalizeValues.
  destruct values as [|v0 vs]; [now destruct i|].
  set (values := v0 :: vs) in *.
  destruct (finiteValues values) as [|f0 fs]; [destruct Hin|].
  destruct (positiveValues (f0 :: fs)) as [|p0 ps]; [exact Hhalf|].
  destruct (allEqual_min_max p0 ps H) as [-> ->].
  replace (Reqb (log10 p0) (log10 p0)) with true
    by (symmetry; now apply Reqb_true).
  exact Hhalf.
Qed.

(** Evaluation of the comparisons on concrete numbers. *)
Ltac js_eval :=
  repeat first
    [ rewrite (proj2 (Rltb_true _ _)) by lra
    | rewrite (proj2 (Rltb_false _ _)) by lra
    | rewrite (proj2 (Rleb_true _ _)) by lra
    | rewrite (proj2 (Rleb_false _ _)) by lra
    | rewrite (proj2 (Reqb_true _ _)) by lra
    | rewrite (proj2 (Reqb_false _ _)) by lra
    | rewrite Rmin_left by lra
    | rewrite Rmin_right by lra
    | rewrite Rmax_left by lra
    | rewrite Rmax_right by lra ].

(** C1, as stated, fails: with all inputs equal the first variant returns 0
    for each of them, and under log scale the second variant returns 0 for
    equal inputs that are not positive. *)
Lemma normalizeValues_equal_inputs_zero :
  Part000.normalizeValues [3; 3] linear = [0; 0]
  /\ GoogleGem.normalizeValues [Num (Fin (-1)); Num (Fin (-1))] log = [0; 0].
Proof.
  split.
  - unfold Part000.normalizeValues, Math_min, Math_max. simpl.
    js_eval. reflexivity.
  - unfold GoogleGem.normalizeValues, positiveValues. simpl.
    js_eval. unfold GoogleGem.halfIfPositive. simpl. js_eval. reflexivity.
Qed.

(** C1 (amended). For every input list of finite numbers, under either
    scale mode, every value returned by [normalizeValues] lies in [0,1], in
    both variants.  When all finite inputs are equal, the second variant
    maps every finite input to 0.5 under linear scale; under log scale, when
    all positive inputs are equal, it maps every positive input to 0.5 and
    every other finite input to 0; the first variant maps equal inputs to 0
    under both modes.

    The first variant is stated on [list R], the lists of finite numbers.
    The conjuncts on the second variant are stated for any list of values,
    of which a list of finite numbers is the special case. *)
Theorem normalizeValues_range_and_equal_inputs :
  (forall values scale,
      Forall Spec.in01 (Part000.normalizeValues values scale))
  /\ (forall values scale,
         Forall Spec.in01 (GoogleGem.normalizeValues values scale))
  /\ (forall values,
         Spec.allEqual (finiteValues values) ->
         forall i r,
           nth_error values i = Some (Num (Fin r)) ->
           nth_error (GoogleGem.normalizeValues values linear) i = Some 0.5)
  /\ (forall values,
         Spec.allEqual (positiveValues (finiteValues values)) ->
         forall i r,
           nth_error values i = Some (Num (Fin r)) ->
           nth_error (GoogleGem.normalizeValues values log) i
           = Some (if Rltb 0 r then 0.5 else 0))
  /\ (forall values scale,
         Spec.allEqual values ->
         Part000.normalizeValues values scale = map (fun _ => 0) values).
Proof.
  split; [exact part000_normalizeValues_in01|].
  split; [exact googlegem_normalizeValues_in01|].
  split; [exact googlegem_normalizeValues_linear_equal|].
  split; [exact googlegem_normalizeValues_log_equal|].
  exact part000_normalizeValues_equal.
Qed.

Lemma allEqual_pair (a : R) : Spec.allEqual [a; a].
Proof.
  intros x y [<- | [<- | []]] [<- | [<- | []]]; reflexivity.
Defined.

Lemma normalizeValues_range_and_equal_inputs_witness :
  nth_error (GoogleGem.normalizeValues [Num (Fin 3); Num (Fin 3)] linear) 1
  = Some 0.5
  /\ Part000.normalizeValues [3; 3] log = [0; 0].
Proof.
  split.
  - exact (proj1 (proj2 (proj2 normalizeValues_range_and_equal_inputs))
             [Num (Fin 3); Num (Fin 3)] (allEqual_pair 3) 1%nat 3 eq_refl).
  - exact (proj2 (proj2 (proj2 (proj2 normalizeValues_range_and_equal_inputs)))
             [3; 3] log (allEqual_pair 3)).
Defined.

(** ** [getDomain] *)

Lemma isMin_Math_min (m x : R) (xs : list R) :
  Terms.isMin m (x :: xs) -> Math_min x xs = m.
Proof.
  intros [Hin Hle].
  pose proof (Math_min_le xs x m Hin).
  pose proof (Hle _ (Math_min_In xs x)). lra.
Qed.

Lemma isMax_Math_max (M x : R) (xs : list R) :
  Terms.isMax M (x :: xs) -> Math_max x xs = M.
Proof.
  intros [Hin Hle].
  pose proof (Math_max_ge xs x M Hin).
  pose proof (Hle _ (Math_max_In xs x)). lra.
Qed.

Lemma Math_min_isMin (x : R) (xs : list R) :
  Terms.isMin (Math_min x xs) (x :: xs).
Proof.
  split; [apply Math_min_In | intros y Hy; now apply Math_min_le].
Qed.

Lemma Math_max_isMax (x : R) (xs : list R) :
  Terms.isMax (Math_max x xs) (x :: xs).
Proof.
  split; [apply Math_max_In | intros y Hy; now apply Math_max_ge].
Qed.

Lemma positiveValues_In (fs : list R) (p : R) :
  In p (positiveValues fs) <-> In p fs /\ 0 < p.
Proof.
  unfold positiveValues. rewrite filter_In, Rltb_true. tauto.
Qed.

Lemma or_num_pos (a b : R) : 0 <= a -> 0 < b -> 0 < or_num a b.
Proof.
  intros Ha Hb. unfold or_num. destruct (Reqb a 0) eqn:E; [exact Hb|].
  apply Reqb_false in E. lra.
Qed.

Lemma or_num_nonzero (a b : R) : a <> 0 -> or_num a b = a.
Proof.
  intros Ha. unfold or_num.
  now replace (Reqb a 0) with false by (symmetry; now apply Reqb_false).
Qed.

Lemma or_num_zero (b : R) : or_num 0 b = b.
Proof.
  unfold or_num.
  now replace (Reqb 0 0) with true by (symmetry; now apply Reqb_true).
Qed.

(** X1. Under log scale the second variant pads by the factor 1.5: the
    domain runs from the least positive finite value divided by 1.5 to the
    greatest one times 1.5 (the [1e-9] fallback is never taken); with no
    positive finite value it is the pair of ['auto'] sentinels. *)
Theorem googlegem_getDomain_log (values : list jsval) :
  (positiveValues (finiteValues values) = [] ->
   GoogleGem.getDomain values log = (GoogleGem.Auto, GoogleGem.Auto))
  /\ (forall m M,
         Terms.isMin m (positiveValues (finiteValues values)) ->
         Terms.isMax M (positiveValues (finiteValues values)) ->
         GoogleGem.getDomain values log
         = (GoogleGem.Bound (m / 1.5), GoogleGem.Bound (M * 1.5))).
Proof.
  unfold GoogleGem.getDomain. split.
  - intros E. destruct (finiteValues values) as [|f0 fs]; [reflexivity|].
    now rewrite E.
  - intros m M Hm HM.
    destruct (finiteValues values) as [|f0 fs].
    { destruct Hm as [[] _]. }
    destruct (positiveValues (f0 :: fs)) as [|p0 ps] eqn:E.
    { destruct Hm as [[] _]. }
    assert (Hpos : 0 < m).
    { destruct Hm as [Hin _]. rewrite <- E in Hin.
      now apply positiveValues_In in Hin. }
    rewrite (isMin_Math_min m p0 ps Hm), (isMax_Math_max M p0 ps HM).
    replace (Rltb 0 (m / 1.5)) with true
      by (symmetry; apply Rltb_true; lra).
    reflexivity.
Qed.

Lemma isMin_single (a : R) : Terms.isMin a [a].
Proof.
  split; [now left | intros x [<- | []]; apply Rle_refl].
Defined.

Lemma isMax_single (a : R) : Terms.isMax a [a].
Proof.
  split; [now left | intros x [<- | []]; apply Rle_refl].
Defined.

Lemma googlegem_getDomain_log_witness :
  GoogleGem.getDomain [Num (Fin (-2)); Num NaN; Num (Fin 3)] log
  = (GoogleGem.Bound (3 / 1.5), GoogleGem.Bound (3 * 1.5)).
Proof.
  apply (proj2 (googlegem_getDomain_log [Num (Fin (-2)); Num NaN; Num (Fin 3)])).
  - simpl. unfold positiveValues. simpl. js_eval. apply isMin_single.
  - simpl. unfold positiveValues. simpl. js_eval. apply isMax_single.
Defined.

(** X2. Under linear scale the second variant pads each side by a tenth of
    the range of the finite values; when they are all equal to [m] it pads by
    a tenth of [|m|], and by 1 when [m] is zero; with no finite value it
    returns the ['auto'] sentinels. *)
Theorem googlegem_getDomain_linear (values : list jsval) :
  (finiteValues values = [] ->
   GoogleGem.getDomain values linear = (GoogleGem.Auto, GoogleGem.Auto))
  /\ (forall m M,
         Terms.isMin m (finiteValues values) ->
         Terms.isMax M (finiteValues values) ->
         GoogleGem.getDomain values linear
         = if Reqb m M then
             if Reqb m 0 then (GoogleGem.Bound (-1), GoogleGem.Bound 1)
             else (GoogleGem.Bound (m - 0.1 * Rabs m),
                   GoogleGem.Bound (m + 0.1 * Rabs m))
           else (GoogleGem.Bound (m - 0.1 * (M - m)),
                 GoogleGem.Bound (M + 0.1 * (M - m)))).
Proof.
  unfold GoogleGem.getDomain. split.
  - now intros ->.
  - intros m M Hm HM.
    destruct (finiteValues values) as [|f0 fs].
    { destruct Hm as [[] _]. }
    rewrite (isMin_Math_min m f0 fs Hm), (isMax_Math_max M f0 fs HM).
    destruct (Reqb m M) eqn:E.
    + destruct (Reqb m 0) eqn:E0.
      * apply Reqb_true in E0. subst m.
        replace (0 * 0.1) with 0 by ring. rewrite Rabs_R0, or_num_zero.
        do 2 f_equal; ring.
      * apply Reqb_false in E0.
        assert (Habs : Rabs (m * 0.1) = 0.1 * Rabs m).
        { rewrite Rabs_mult, (Rabs_pos_eq 0.1) by lra. ring. }
        rewrite or_num_nonzero.
        { rewrite Habs. reflexivity. }
        rewrite Habs. pose proof (Rabs_pos_lt m E0). lra.
    + do 2 f_equal; ring.
Qed.

Lemma googlegem_getDomain_linear_witness :
  GoogleGem.getDomain [Num (Fin 5)] linear
  = (GoogleGem.Bound (5 - 0.1 * Rabs 5), GoogleGem.Bound (5 + 0.1 * Rabs 5)).
Proof.
  pose proof (proj2 (googlegem_getDomain_linear [Num (Fin 5)]) 5 5
                (isMin_single 5) (isMax_single 5)) as H.
  rewrite (proj2 (Reqb_true 5 5)) in H by reflexivity.
  rewrite (proj2 (Reqb_false 5 0)) in H by lra.
  exact H.
Defined.

Lemma finiteValues_In_inv (values : list jsval) (r : R) :
  In r (finiteValues values) -> In (Num (Fin r)) values.
Proof.
  induction values as [|v vs IH]; simpl; [easy|].
  destruct v as [| |[| | |x]]; simpl; auto.
  intros [-> | H]; auto.
Qed.

Lemma googlegem_getDomain_shape (values : list jsval) (scale : JS.scale) :
  GoogleGem.getDomain values scale = (GoogleGem.Auto, GoogleGem.Auto)
  \/ exists lo hi,
      GoogleGem.getDomain values scale
      = (GoogleGem.Bound lo, GoogleGem.Bound hi)
      /\ lo < hi
      /\ (scale = log -> 0 < lo)
      /\ forall r, In (Num (Fin r)) values ->
                   (scale = log -> 0 < r) -> lo < r < hi.
Proof.
  unfold GoogleGem.getDomain.
  destruct (finiteValues values) as [|f0 fs] eqn:Ef; [now left|].
  destruct scale.
  - right.
    pose proof (Math_min_le fs f0) as Hmin.
    pose proof (Math_max_ge fs f0) as Hmax.
    pose proof (Math_min_le_max f0 fs) as Hmm.
    destruct (Reqb _ _) eqn:E.
    + apply Reqb_true in E.
      set (pad := or_num (Rabs (Math_min f0 fs * 0.1)) 1).
      assert (Hpad : 0 < pad)
        by (apply or_num_pos; [apply Rabs_pos | lra]).
      eexists _, _. split; [reflexivity|].
      split; [lra|]. split; [discriminate|].
      intros r Hr _. apply finiteValues_In in Hr. rewrite Ef in Hr.
      specialize (Hmin r Hr). specialize (Hmax r Hr). lra.
    + apply Reqb_false in E.
      eexists _, _. split; [reflexivity|].
      split; [lra|]. split; [discriminate|].
      intros r Hr _. apply finiteValues_In in Hr. rewrite Ef in Hr.
      specialize (Hmin r Hr). specialize (Hmax r Hr). lra.
  - destruct (positiveValues (f0 :: fs)) as [|p0 ps] eqn:Ep; [now left|].
    right.
    pose proof (Math_min_le ps p0) as Hmin.
    pose proof (Math_max_ge ps p0) as Hmax.
    pose proof (Math_min_le_max p0 ps) as Hmm.
    assert (Hpos : 0 < Math_min p0 ps).
    { pose proof (Math_min_In ps p0) as Hin. rewrite <- Ep in Hin.
      now apply positiveValues_In in Hin. }
    replace (Rltb 0 (Math_min p0 ps / 1.5)) with true
      by (symmetry; apply Rltb_true; lra).
    eexists _, _. split; [reflexivity|].
    split; [lra|]. split; [lra|].
    intros r Hr Hlog. specialize (Hlog eq_refl).
    assert (Hin : In r (p0 :: ps)).
    { rewrite <- Ep. apply positiveValues_In. split; [|exact Hlog].
      rewrite <- Ef. now apply finiteValues_In. }
    specialize (Hmin r Hin). specialize (Hmax r Hin). lra.
Qed.

(** ** Bounds on the logarithms the first variant mixes *)

Lemma ln_10_gt_2 : 2 < ln 10.
Proof.
  rewrite <- (ln_exp 2). apply ln_increasing; [apply exp_pos|].
  replace 2 with (1 + 1) by ring. rewrite exp_plus.
  pose proof exp_le_3. pose proof (exp_pos 1). nra.
Qed.

Lemma ln_2_gt_half : 1 / 2 < ln 2.
Proof.
  rewrite <- (ln_exp (1 / 2)). apply ln_increasing; [apply exp_pos|].
  pose proof exp_le_3 as H3. pose proof (exp_pos (1 / 2)) as Hp.
  assert (E : exp (1 / 2) * exp (1 / 2) = exp 1).
  { rewrite <- exp_plus. f_equal. lra. }
  nra.
Qed.

Lemma Rpower_10_pos (e : R) : 0 < Rpower 10 e.
Proof. unfold Rpower. apply exp_pos. Qed.

Lemma Rpower_10_lt (a b : R) : a < b -> Rpower 10 a < Rpower 10 b.
Proof. intros H. apply Rpower_lt; lra. Qed.

(** X4. On a list of finite numbers the first variant's [getDomain]
    returns [0, 1] for the empty list under either scale mode (so a low end
    of 0 even under log scale); under linear scale, with least value [m] and
    greatest value [M], it returns [m - p, M + p] where [p] is a tenth of
    the range when [m < M] and the fixed 0.1 when all values are equal; under
    log scale on a non-empty list its low end is positive. *)
Theorem part000_getDomain_finite (values : list R) :
  (forall scale, Part000.getDomain [] scale = (0, 1))
  /\ (forall m M,
         Terms.isMin m values -> Terms.isMax M values ->
         Part000.getDomain values linear
         = if Reqb m M then (m - 0.1, m + 0.1)
           else (m - 0.1 * (M - m), M + 0.1 * (M - m)))
  /\ (values <> [] -> 0 < fst (Part000.getDomain values log)).
Proof.
  split; [reflexivity|]. split.
  - intros m M Hm HM. unfold Part000.getDomain.
    destruct values as [|v0 vs]; [destruct Hm as [[] _]|].
    cbv zeta.
    rewrite (isMin_Math_min m v0 vs Hm), (isMax_Math_max M v0 vs HM).
    destruct (Reqb m M) eqn:E.
    + apply Reqb_true in E. subst M.
      replace ((m - m) * 0.1) with 0 by ring. now rewrite or_num_zero.
    + apply Reqb_false in E.
      rewrite or_num_nonzero by lra. f_equal; ring.
  - intros Hne. unfold Part000.getDomain.
    destruct values as [|v0 vs]; [contradiction|].
    cbv zeta. simpl fst. apply Rpower_10_pos.
Qed.

Lemma isMin_7_of_7_7 : Terms.isMin 7 [7; 7].
Proof.
  split; [now left | intros x [<- | [<- | []]]; lra].
Defined.

Lemma isMax_7_of_7_7 : Terms.isMax 7 [7; 7].
Proof.
  split; [now left | intros x [<- | [<- | []]]; lra].
Defined.

Lemma part000_getDomain_finite_witness :
  Part000.getDomain [7; 7] linear = (7 - 0.1, 7 + 0.1).
Proof.
  pose proof (proj1 (proj2 (part000_getDomain_finite [7; 7])) 7 7
                isMin_7_of_7_7 isMax_7_of_7_7) as H.
  rewrite (proj2 (Reqb_true 7 7)) in H by reflexivity.
  exact H.
Defined.

Lemma part000_getDomain_single_log (v : R) :
  1 <= v ->
  Part000.getDomain [v] log
  = (Rpower 10 (ln v - 0.1), Rpower 10 (ln v + 0.1)).
Proof.
  intros Hv. unfold Part000.getDomain, Math_min, Math_max. simpl.
  rewrite Rmax_left by lra.
  replace ((ln v - ln v) * 0.1) with 0 by ring.
  rewrite or_num_zero. reflexivity.
Qed.

Lemma value_below_padded_power (v : R) :
  2 <= v -> v < Rpower 10 (ln v - 0.1).
Proof.
  intros Hv. unfold Rpower.
  rewrite <- (exp_ln v) at 1 by lra.
  apply exp_increasing.
  pose proof ln_10_gt_2 as H10. pose proof ln_2_gt_half as H2.
  assert (Hl : ln 2 <= ln v).
  { destruct (Req_dec_T v 2) as [-> | Hne]; [lra|].
    left. apply ln_increasing; lra. }
  nra.
Qed.

(** X5. Under log scale the first variant takes natural logarithms but
    raises 10 to the padded bounds, so the domain of a single data value
    [v >= 2] starts above [v]: the value lies outside its own axis domain. *)
Theorem part000_getDomain_log_excludes_value (v : R) :
  2 <= v -> v < fst (Part000.getDomain [v] log).
Proof.
  intros Hv. rewrite part000_getDomain_single_log by lra. simpl.
  now apply value_below_padded_power.
Qed.

Lemma part000_getDomain_log_excludes_value_witness :
  100 < fst (Part000.getDomain [100] log).
Proof.
  apply (part000_getDomain_log_excludes_value 100). lra.
Defined.

(** ** The coordinate mapper *)

Lemma ln_10_pos : 0 < ln 10.
Proof. pose proof ln_10_gt_2. lra. Qed.

Lemma log10_increasing (a b : R) : 0 < a -> a < b -> log10 a < log10 b.
Proof.
  intros Ha Hab. unfold log10, Rdiv.
  apply Rmult_lt_compat_r.
  - apply Rinv_0_lt_compat, ln_10_pos.
  - now apply ln_increasing.
Qed.

Lemma frac_strict (lo hi v : R) :
  lo < v < hi -> 0 < (v - lo) / (hi - lo) < 1.
Proof.
  intros [H1 H2].
  assert (Hd : 0 < hi - lo) by lra.
  split.
  - apply Rmult_lt_0_compat; [lra | now apply Rinv_0_lt_compat].
  - apply (Rmult_lt_reg_r (hi - lo)); [exact Hd|].
    unfold Rdiv. rewrite Rmult_assoc, Rinv_l by lra. lra.
Qed.

Lemma frac_increasing (lo hi v1 v2 : R) :
  lo < hi -> v1 < v2 -> (v1 - lo) / (hi - lo) < (v2 - lo) / (hi - lo).
Proof.
  intros Hd Hv. unfold Rdiv. apply Rmult_lt_compat_r; [|lra].
  apply Rinv_0_lt_compat. lra.
Qed.

Lemma mapX_linear_eq (lo hi ml w v : R) :
  lo <> hi ->
  GoogleGem.mapX (GoogleGem.Bound lo, GoogleGem.Bound hi) linear ml w v
  = ml + ((v - lo) / (hi - lo)) * w.
Proof.
  intros H. unfold GoogleGem.mapX.
  now replace (Reqb hi lo) with false
    by (symmetry; apply Reqb_false; intros E; now apply H).
Qed.

Lemma mapY_linear_eq (lo hi mt h v : R) :
  lo <> hi ->
  GoogleGem.mapY (GoogleGem.Bound lo, GoogleGem.Bound hi) linear mt h v
  = mt + h - (((v - lo) / (hi - lo)) * h).
Proof.
  intros H. unfold GoogleGem.mapY.
  now replace (Reqb hi lo) with false
    by (symmetry; apply Reqb_false; intros E; now apply H).
Qed.

Lemma mapX_log_eq (lo hi ml w v : R) :
  0 < lo -> lo < hi -> 0 < v ->
  GoogleGem.mapX (GoogleGem.Bound lo, GoogleGem.Bound hi) log ml w v
  = ml + ((log10 v - log10 lo) / (log10 hi - log10 lo)) * w.
Proof.
  intros Hlo Hlt Hv. unfold GoogleGem.mapX.
  pose proof (log10_increasing lo hi Hlo Hlt).
  replace (Reqb hi lo) with false by (symmetry; apply Reqb_false; lra).
  replace (Rleb v 0) with false by (symmetry; apply Rleb_false; lra).
  replace (Rleb lo 0) with false by (symmetry; apply Rleb_false; lra).
  replace (Rleb hi 0) with false by (symmetry; apply Rleb_false; lra).
  simpl.
  now replace (Reqb (log10 lo) (log10 hi)) with false
    by (symmetry; apply Reqb_false; lra).
Qed.

Lemma mapY_log_eq (lo hi mt h v : R) :
  0 < lo -> lo < hi -> 0 < v ->
  GoogleGem.mapY (GoogleGem.Bound lo, GoogleGem.Bound hi) log mt h v
  = mt + h - (((log10 v - log10 lo) / (log10 hi - log10 lo)) * h).
Proof.
  intros Hlo Hlt Hv. unfold GoogleGem.mapY.
  pose proof (log10_increasing lo hi Hlo Hlt).
  replace (Reqb hi lo) with false by (symmetry; apply Reqb_false; lra).
  replace (Rleb v 0) with false by (symmetry; apply Rleb_false; lra).
  replace (Rleb lo 0) with false by (symmetry; apply Rleb_false; lra).
  replace (Rleb hi 0) with false by (symmetry; apply Rleb_false; lra).
  simpl.
  now replace (Reqb (log10 lo) (log10 hi)) with false
    by (symmetry; apply Reqb_false; lra).
Qed.

(** X6. Under log scale, on a domain 0 < low < high, the second variant's
    mapper places a positive value at
    [origin + (log10 v - log10 low) / (log10 high - log10 low) * size]
    ([mapY] measures the same fraction upwards from the bottom edge), and a
    value [v <= 0] at the origin: the left edge for [mapX], the bottom edge
    for [mapY]. *)
Theorem googlegem_mapper_log (lo hi origin size v : R) :
  0 < lo -> lo < hi ->
  (0 < v ->
   GoogleGem.mapX (GoogleGem.Bound lo, GoogleGem.Bound hi) log origin size v
   = origin + (log10 v - log10 lo) / (log10 hi - log10 lo) * size
   /\ GoogleGem.mapY (GoogleGem.Bound lo, GoogleGem.Bound hi) log origin size v
      = origin + size
        - (log10 v - log10 lo) / (log10 hi - log10 lo) * size)
  /\ (v <= 0 ->
      GoogleGem.mapX (GoogleGem.Bound lo, GoogleGem.Bound hi) log origin size v
      = origin
      /\ GoogleGem.mapY (GoogleGem.Bound lo, GoogleGem.Bound hi) log origin
                        size v
         = origin + size).
Proof.
  intros Hlo Hlt. split.
  - intros Hv. split; [now apply mapX_log_eq | now apply mapY_log_eq].
  - intros Hv. unfold GoogleGem.mapX, GoogleGem.mapY.
    replace (Reqb hi lo) with false by (symmetry; apply Reqb_false; lra).
    replace (Rleb v 0) with true by (symmetry; now apply Rleb_true).
    split; reflexivity.
Qed.

Lemma log10_1 : log10 1 = 0.
Proof. unfold log10. rewrite ln_1. unfold Rdiv. ring. Qed.

Lemma log10_10 : log10 10 = 1.
Proof. unfold log10. field. pose proof ln_10_pos. lra. Qed.

Lemma log10_100 : log10 100 = 2.
Proof.
  unfold log10. replace 100 with (10 * 10) by ring.
  rewrite ln_mult by lra. field. pose proof ln_10_pos. lra.
Qed.

Lemma googlegem_mapper_log_witness :
  GoogleGem.mapX (GoogleGem.Bound 1, GoogleGem.Bound 100) log 0 100 10 = 50
  /\ GoogleGem.mapX (GoogleGem.Bound 1, GoogleGem.Bound 100) log 0 100 (-3)
     = 0.
Proof.
  assert (H0 : 0 < 1) by lra. assert (H1 : 1 < 100) by lra.
  split.
  - assert (Hv : 0 < 10) by lra.
    rewrite (proj1 (proj1 (googlegem_mapper_log 1 100 0 100 10 H0 H1) Hv)).
    rewrite log10_1, log10_10, log10_100. lra.
  - assert (Hv : -3 <= 0) by lra.
    exact (proj1 (proj2 (googlegem_mapper_log 1 100 0 100 (-3) H0 H1) Hv)).
Defined.

(** X7. The second variant's mapper fails closed: when either end of the
    domain is ['auto'], when the two ends are equal, or under log scale when
    an end of the domain is not positive, [mapX] returns the left edge and
    [mapY] the bottom edge, whatever the value. *)
Theorem googlegem_mapper_fails_closed
  (d : GoogleGem.bound * GoogleGem.bound) (scale : JS.scale)
  (origin size v : R) :
  (fst d = GoogleGem.Auto
   \/ snd d = GoogleGem.Auto
   \/ (exists c, d = (GoogleGem.Bound c, GoogleGem.Bound c))
   \/ (scale = log /\ exists lo hi,
          d = (GoogleGem.Bound lo, GoogleGem.Bound hi)
          /\ (lo <= 0 \/ hi <= 0))) ->
  GoogleGem.mapX d scale origin size v = origin
  /\ GoogleGem.mapY d scale origin size v = origin + size.
Proof.
  unfold GoogleGem.mapX, GoogleGem.mapY.
  intros [H | [H | [[c ->] | [-> [lo [hi [-> H]]]]]]].
  - destruct d as [[|lo] hi]; [split; reflexivity | discriminate].
  - destruct d as [[|lo] [|hi]]; try discriminate; split; reflexivity.
  - replace (Reqb c c) with true by (symmetry; now apply Reqb_true).
    split; reflexivity.
  - destruct (Reqb hi lo); [split; reflexivity|].
    destruct H as [H | H].
    + replace (Rleb lo 0) with true by (symmetry; now apply Rleb_true).
      rewrite orb_true_r. split; reflexivity.
    + replace (Rleb hi 0) with true by (symmetry; now apply Rleb_true).
      rewrite !orb_true_r. split; reflexivity.
Qed.

Lemma googlegem_mapper_fails_closed_witness :
  GoogleGem.mapX (GoogleGem.Auto, GoogleGem.Auto) linear 80 500 7 = 80
  /\ GoogleGem.mapY (GoogleGem.Auto, GoogleGem.Auto) linear 20 300 7
     = 20 + 300.
Proof.
  split.
  - apply (googlegem_mapper_fails_closed
             (GoogleGem.Auto, GoogleGem.Auto) linear 80 500 7).
    left. reflexivity.
  - apply (googlegem_mapper_fails_closed
             (GoogleGem.Auto, GoogleGem.Auto) linear 20 300 7).
    left. reflexivity.
Defined.

Lemma mapper_fraction (scale : JS.scale) (lo hi origin size v : R) :
  Terms.properDomain scale lo hi -> Terms.placeable scale v ->
  GoogleGem.mapX (GoogleGem.Bound lo, GoogleGem.Bound hi) scale origin size v
  = origin + Terms.fraction scale lo hi v * size
  /\ GoogleGem.mapY (GoogleGem.Bound lo, GoogleGem.Bound hi) scale origin
                    size v
     = origin + size - Terms.fraction scale lo hi v * size.
Proof.
  intros [Hlt Hlo] Hv. destruct scale; unfold Terms.fraction.
  - rewrite mapX_linear_eq, mapY_linear_eq by lra. split; reflexivity.
  - specialize (Hlo eq_refl). specialize (Hv eq_refl).
    rewrite mapX_log_eq, mapY_log_eq by assumption. split; reflexivity.
Qed.

Lemma fraction_increasing (scale : JS.scale) (lo hi v1 v2 : R) :
  Terms.properDomain scale lo hi -> Terms.placeable scale v1 -> v1 < v2 ->
  Terms.fraction scale lo hi v1 < Terms.fraction scale lo hi v2.
Proof.
  intros [Hlt Hlo] Hv Hlt12. destruct scale; simpl.
  - now apply frac_increasing.
  - specialize (Hlo eq_refl). specialize (Hv eq_refl).
    apply frac_increasing.
    + now apply log10_increasing.
    + now apply log10_increasing.
Qed.

Lemma fraction_lo (scale : JS.scale) (lo hi : R) :
  Terms.fraction scale lo hi lo = 0.
Proof.
  destruct scale; simpl; unfold Rdiv; ring.
Qed.

Lemma fraction_hi (scale : JS.scale) (lo hi : R) :
  Terms.properDomain scale lo hi -> Terms.fraction scale lo hi hi = 1.
Proof.
  intros [Hlt Hlo]. destruct scale; simpl.
  - field. lra.
  - specialize (Hlo eq_refl).
    pose proof (log10_increasing lo hi Hlo Hlt). field. lra.
Qed.

(** X8. On a proper domain and a plot of positive size the second variant's
    [mapX] is strictly increasing and its [mapY] strictly decreasing in the
    data value, under linear and under log scale (for positive values): the
    Y axis is flipped, not shifted. *)
Theorem googlegem_mapper_monotone
  (scale : JS.scale) (lo hi origin size v1 v2 : R) :
  Terms.properDomain scale lo hi -> Terms.placeable scale v1 ->
  0 < size -> v1 < v2 ->
  GoogleGem.mapX (GoogleGem.Bound lo, GoogleGem.Bound hi) scale origin size v1
  < GoogleGem.mapX (GoogleGem.Bound lo, GoogleGem.Bound hi) scale origin
                   size v2
  /\ GoogleGem.mapY (GoogleGem.Bound lo, GoogleGem.Bound hi) scale origin
                    size v2
     < GoogleGem.mapY (GoogleGem.Bound lo, GoogleGem.Bound hi) scale origin
                      size v1.
Proof.
  intros Hd Hv1 Hs Hlt.
  assert (Hv2 : Terms.placeable scale v2).
  { intros E. specialize (Hv1 E). lra. }
  destruct (mapper_fraction scale lo hi origin size v1 Hd Hv1) as [-> ->].
  destruct (mapper_fraction scale lo hi origin size v2 Hd Hv2) as [-> ->].
  pose proof (fraction_increasing scale lo hi v1 v2 Hd Hv1 Hlt). nra.
Qed.

Lemma properDomain_log_1_100 : Terms.properDomain log 1 100.
Proof. split; intros; lra. Defined.

Lemma placeable_log_2 : Terms.placeable log 2.
Proof. intros _. lra. Defined.

Lemma googlegem_mapper_monotone_witness :
  GoogleGem.mapX (GoogleGem.Bound 1, GoogleGem.Bound 100) log 80 500 2
  < GoogleGem.mapX (GoogleGem.Bound 1, GoogleGem.Bound 100) log 80 500 3
  /\ GoogleGem.mapY (GoogleGem.Bound 1, GoogleGem.Bound 100) log 80 500 3
     < GoogleGem.mapY (GoogleGem.Bound 1, GoogleGem.Bound 100) log 80 500 2.
Proof.
  apply (googlegem_mapper_monotone log 1 100 80 500 2 3
           properDomain_log_1_100 placeable_log_2); lra.
Defined.

(** X9. On a proper domain the second variant's mapper sends the low end of
    the domain to the left (bottom) edge of the plot and the high end to the
    right (top) edge, and every value of the domain to a coordinate between
    the two edges. *)
Theorem googlegem_mapper_range (scale : JS.scale) (lo hi origin size v : R) :
  Terms.properDomain scale lo hi -> 0 <= size -> lo <= v <= hi ->
  GoogleGem.mapX (GoogleGem.Bound lo, GoogleGem.Bound hi) scale origin size lo
  = origin
  /\ GoogleGem.mapX (GoogleGem.Bound lo, GoogleGem.Bound hi) scale origin
                    size hi
     = origin + size
  /\ GoogleGem.mapY (GoogleGem.Bound lo, GoogleGem.Bound hi) scale origin
                    size lo
     = origin + size
  /\ GoogleGem.mapY (GoogleGem.Bound lo, GoogleGem.Bound hi) scale origin
                    size hi
     = origin
  /\ origin
     <= GoogleGem.mapX (GoogleGem.Bound lo, GoogleGem.Bound hi) scale origin
                       size v
     <= origin + size
  /\ origin
     <= GoogleGem.mapY (GoogleGem.Bound lo, GoogleGem.Bound hi) scale origin
                       size v
     <= origin + size.
Proof.
  intros Hd Hs [Hv1 Hv2].
  assert (Hplo : Terms.placeable scale lo) by (intros E; now apply Hd).
  assert (Hpv : Terms.placeable scale v).
  { intros E. specialize (Hplo E). lra. }
  assert (Hphi : Terms.placeable scale hi).
  { intros E. specialize (Hplo E). destruct Hd. lra. }
  destruct (mapper_fraction scale lo hi origin size lo Hd Hplo) as [-> ->].
  destruct (mapper_fraction scale lo hi origin size hi Hd Hphi) as [-> ->].
  destruct (mapper_fraction scale lo hi origin size v Hd Hpv) as [-> ->].
  rewrite fraction_lo, (fraction_hi scale lo hi Hd).
  assert (Ht : 0 <= Terms.fraction scale lo hi v <= 1).
  { split.
    - destruct Hv1 as [Hv1 | <-]; [|rewrite fraction_lo; lra].
      rewrite <- (fraction_lo scale lo hi). left.
      now apply fraction_increasing.
    - destruct Hv2 as [Hv2 | ->]; [|rewrite (fraction_hi scale lo hi Hd); lra].
      rewrite <- (fraction_hi scale lo hi Hd). left.
      now apply fraction_increasing. }
  repeat split; nra.
Qed.

Lemma properDomain_linear_0_10 : Terms.properDomain linear 0 10.
Proof. split; [lra | discriminate]. Defined.

Lemma googlegem_mapper_range_witness :
  GoogleGem.mapX (GoogleGem.Bound 0, GoogleGem.Bound 10) linear 0 100 10
  = 0 + 100.
Proof.
  apply (googlegem_mapper_range linear 0 10 0 100 5 properDomain_linear_0_10);
    lra.
Defined.

(** X3. Whenever the second variant's [getDomain] returns numbers, they form
    a proper axis domain: low < high, low > 0 under log scale, and every
    finite input value (every positive one under log scale) lies strictly
    inside; otherwise both ends are ['auto']. *)
Theorem googlegem_getDomain_well_formed (values : list jsval) (scale : JS.scale) :
  GoogleGem.getDomain values scale = (GoogleGem.Auto, GoogleGem.Auto)
  \/ exists lo hi,
      GoogleGem.getDomain values scale
      = (GoogleGem.Bound lo, GoogleGem.Bound hi)
      /\ lo < hi
      /\ (scale = log -> 0 < lo)
      /\ forall r, In (Num (Fin r)) values ->
                   (scale = log -> 0 < r) -> lo < r < hi.
Proof. apply googlegem_getDomain_shape. Qed.

Lemma googlegem_getDomain_numeric (values : list jsval) (scale : JS.scale)
  (r : R) :
  In (Num (Fin r)) values -> Terms.placeable scale r ->
  GoogleGem.getDomain values scale <> (GoogleGem.Auto, GoogleGem.Auto).
Proof.
  intros Hin Hp. unfold GoogleGem.getDomain.
  apply finiteValues_In in Hin.
  destruct (finiteValues values) as [|f0 fs]; [destruct Hin|].
  destruct scale.
  - destruct (Reqb _ _); discriminate.
  - destruct (positiveValues (f0 :: fs)) as [|p0 ps] eqn:Ep; [|discriminate].
    assert (H : In r (positiveValues (f0 :: fs))).
    { apply positiveValues_In. split; [exact Hin | now apply Hp]. }
    rewrite Ep in H. destruct H.
Qed.

(** X10. The domain calculator and the mapper of the second variant fit
    together: with the domain [getDomain] computes from the plotted values,
    every finite value (every positive one under log scale) is mapped
    strictly inside the plot, on both axes, whenever the plot has positive
    size. *)
Theorem googlegem_points_land_inside_plot
  (values : list jsval) (scale : JS.scale) (origin size r : R) :
  0 < size -> In (Num (Fin r)) values -> Terms.placeable scale r ->
  origin
  < GoogleGem.mapX (GoogleGem.getDomain values scale) scale origin size r
  < origin + size
  /\ origin
     < GoogleGem.mapY (GoogleGem.getDomain values scale) scale origin size r
     < origin + size.
Proof.
  intros Hs Hin Hp.
  destruct (googlegem_getDomain_shape values scale)
    as [E | [lo [hi [E [Hlt [Hlo Hins]]]]]].
  { now apply (googlegem_getDomain_numeric values scale r) in E. }
  rewrite E.
  assert (Hd : Terms.properDomain scale lo hi) by (split; assumption).
  destruct (Hins r Hin Hp) as [H1 H2].
  assert (Hplo : Terms.placeable scale lo) by exact Hlo.
  destruct (mapper_fraction scale lo hi origin size r Hd Hp) as [-> ->].
  pose proof (fraction_increasing scale lo hi lo r Hd Hplo H1) as F1.
  pose proof (fraction_increasing scale lo hi r hi Hd Hp H2) as F2.
  rewrite fraction_lo in F1. rewrite (fraction_hi scale lo hi Hd) in F2.
  nra.
Qed.

Lemma placeable_linear (v : R) : Terms.placeable linear v.
Proof. intros E. discriminate E. Defined.

Lemma googlegem_points_land_inside_plot_witness :
  80 < GoogleGem.mapX
         (GoogleGem.getDomain [Num (Fin 1); Null; Num (Fin 4)] linear)
         linear 80 500 4
  < 80 + 500.
Proof.
  apply (googlegem_points_land_inside_plot
           [Num (Fin 1); Null; Num (Fin 4)] linear 80 500 4).
  - lra.
  - simpl. right. right. left. reflexivity.
  - apply placeable_linear.
Defined.

(** X11. In the first variant, for a domain with low < high and two values
    [v1 < v2], the screen x grows with the value exactly when the plot width
    is positive, and the screen y falls exactly when the plot height is
    positive; the plot width is positive exactly when the container is wider
    than the two margins plus 32 pixels. *)
Theorem part000_screen_monotone
  (t : Part000.ToleranceSettings) (d : R * R) (w h v1 v2 : R) :
  fst d < snd d -> v1 < v2 ->
  (Part000.screenX t d w v1 < Part000.screenX t d w v2 <-> 0 < w)
  /\ (Part000.screenY t d h v2 < Part000.screenY t d h v1 <-> 0 < h)
  /\ (forall containerWidth,
         0 < Part000.plotWidth t containerWidth
         <-> Part000.chartMarginLeft t + Part000.chartMarginRight t + 32
             < containerWidth).
Proof.
  intros Hd Hv. unfold Part000.screenX, Part000.screenY, Part000.plotWidth.
  pose proof (frac_increasing (fst d) (snd d) v1 v2 Hd Hv) as F.
  set (f1 := (v1 - fst d) / (snd d - fst d)) in *.
  set (f2 := (v2 - fst d) / (snd d - fst d)) in *.
  repeat split; intros; try lra; try nra.
Qed.

Lemma part000_screen_monotone_witness :
  Part000.screenY Part000.defaultTolerances (0, 10) 100 7
  < Part000.screenY Part000.defaultTolerances (0, 10) 100 3.
Proof.
  apply (part000_screen_monotone Part000.defaultTolerances (0, 10) 100 100 3 7);
    simpl; lra.
Defined.

(** X12. In the first variant under log x-scale, the screen point of a lone
    data point with [x >= 2] falls left of the chart margin whenever the plot
    width is positive, so the on-plot test of [sortedData] rejects it: the
    anchor is computed linearly in a domain that does not hold the value. *)
Theorem part000_log_point_off_plot
  (t : Part000.ToleranceSettings) (yScale : JS.scale)
  (containerWidth containerHeight x y : R) :
  2 <= x -> 0 < Part000.plotWidth t containerWidth ->
  exists p,
    Part000.screenPoints t log yScale containerWidth containerHeight [(x, y)]
    = [p]
    /\ Part000.pt_x p < Part000.chartMarginLeft t
    /\ Part000.onPlot t containerWidth containerHeight p = false.
Proof.
  intros Hx Hw. unfold Part000.screenPoints. simpl map. cbv zeta.
  eexists. split; [reflexivity|].
  assert (Hlt : Part000.screenX t (Part000.getDomain [x] log)
                  (Part000.plotWidth t containerWidth) x
                < Part000.chartMarginLeft t).
  { unfold Part000.screenX.
    rewrite part000_getDomain_single_log by lra. simpl fst; simpl snd.
    assert (H1 : x < Rpower 10 (ln x - 0.1))
      by now apply value_below_padded_power.
    assert (H2 : Rpower 10 (ln x - 0.1) < Rpower 10 (ln x + 0.1))
      by (apply Rpower_10_lt; lra).
    set (lo := Rpower 10 (ln x - 0.1)) in *.
    set (hi := Rpower 10 (ln x + 0.1)) in *.
    assert (Hneg : (x - lo) / (hi - lo) < 0).
    { unfold Rdiv.
      assert (Hi : 0 < / (hi - lo)) by (apply Rinv_0_lt_compat; lra).
      nra. }
    nra. }
  split.
  - exact Hlt.
  - unfold Part000.onPlot. simpl Part000.pt_x.
    replace (Rleb (Part000.chartMarginLeft t) _) with false
      by (symmetry; apply Rleb_false; exact Hlt).
    reflexivity.
Qed.

Lemma part000_log_point_off_plot_witness :
  exists p,
    Part000.screenPoints Part000.defaultTolerances log linear 212 400 [(100, 3)]
    = [p]
    /\ Part000.pt_x p < Part000.chartMarginLeft Part000.defaultTolerances
    /\ Part000.onPlot Part000.defaultTolerances 212 400 p = false.
Proof.
  apply (part000_log_point_off_plot Part000.defaultTolerances linear
           212 400 100 3).
  - lra.
  - unfold Part000.plotWidth. simpl. lra.
Defined.

(** ** [calculateDensity] *)

Lemma sqrt_lt_Rabs (a r : R) : 0 <= a -> (a < r * r <-> sqrt a < Rabs r).
Proof.
  intros Ha.
  pose proof (sqrt_pos a) as Hs. pose proof (sqrt_sqrt a Ha) as Hss.
  pose proof (Rabs_pos r) as Hr.
  assert (Hrr : Rabs r * Rabs r = r * r).
  { unfold Rabs. destruct (Rcase_abs r); ring. }
  split; intros H.
  - destruct (Rlt_dec (sqrt a) (Rabs r)) as [Hlt | Hge]; [exact Hlt|].
    nra.
  - nra.
Qed.

Lemma sqrt_lt_nonpos (a r : R) : r <= 0 -> ~ sqrt a < r.
Proof. intros Hr H. pose proof (sqrt_pos a). lra. Qed.

Lemma dist_self (x y : R) : Terms.dist x y x y = 0.
Proof.
  unfold Terms.dist.
  replace ((x - x) * (x - x) + (y - y) * (y - y)) with 0 by ring.
  apply sqrt_0.
Qed.

Lemma sum_squares_nonneg (a b : R) : 0 <= a * a + b * b.
Proof. nra. Qed.

Lemma split_at (A : Type) (l : list A) (i : nat) (p : A) :
  nth_error l i = Some p -> l = firstn i l ++ p :: skipn (S i) l.
Proof.
  revert i. induction l as [|a l IH]; intros [|i] H; simpl in *;
    try discriminate.
  - now injection H as ->.
  - f_equal. now apply IH.
Qed.

Lemma filter_length_split (A : Type) (f : A -> bool) (l : list A) (i : nat)
  (p : A) :
  nth_error l i = Some p ->
  List.length (filter f l)
  = (List.length (filter f (Terms.removeAt i l))
     + (if f p then 1 else 0))%nat.
Proof.
  intros H. unfold Terms.removeAt.
  rewrite (split_at A l i p H) at 1.
  rewrite !filter_app, !length_app. simpl.
  destruct (f p); simpl; lia.
Qed.

Lemma countWithin_fold (point : GoogleGem.Point) (radius : R)
  (l : list GoogleGem.Point) :
  forall n,
    fold_left (GoogleGem.countWithin point radius) l n
    = (n + List.length (filter (Terms.nearGem point (Rabs radius)) l))%nat.
Proof.
  induction l as [|p l IH]; intros n; simpl.
  - lia.
  - rewrite IH. unfold GoogleGem.countWithin. cbv zeta.
    unfold Terms.nearGem at 2. unfold Terms.dist.
    destruct (Rltb (_ + _) (radius * radius)) eqn:E.
    + apply Rltb_true in E.
      apply sqrt_lt_Rabs in E; [|apply sum_squares_nonneg].
      apply Rltb_true in E. rewrite E. simpl. lia.
    + apply Rltb_false in E.
      destruct (Rltb (sqrt _) (Rabs radius)) eqn:E'; [|simpl; lia].
      apply Rltb_true in E'.
      apply sqrt_lt_Rabs in E'; [lra | apply sum_squares_nonneg].
Qed.

(** X13. For an anchor that is itself a member of the list ([p] at index
    [i]), the second variant's [calculateDensity] is the number of the other
    anchors whose Euclidean distance to [p] is strictly less than [|radius|];
    for a radius that is not negative that is the radius itself. *)
Theorem googlegem_calculateDensity_counts_others
  (allPoints : list GoogleGem.Point) (i : nat) (p : GoogleGem.Point)
  (radius : R) :
  nth_error allPoints i = Some p ->
  GoogleGem.calculateDensity p allPoints radius
  = List.length
      (filter (Terms.nearGem p (Rabs radius)) (Terms.removeAt i allPoints))
  /\ (0 <= radius ->
      GoogleGem.calculateDensity p allPoints radius
      = List.length
          (filter (Terms.nearGem p radius) (Terms.removeAt i allPoints))).
Proof.
  intros H.
  cut (GoogleGem.calculateDensity p allPoints radius
       = List.length
           (filter (Terms.nearGem p (Rabs radius))
                   (Terms.removeAt i allPoints))).
  { intros E. split; [exact E|].
    intros Hr. rewrite E. now rewrite Rabs_pos_eq. }
  unfold GoogleGem.calculateDensity. rewrite countWithin_fold. simpl plus.
  rewrite (filter_length_split _ _ allPoints i p H).
  set (k := List.length (filter _ (Terms.removeAt i allPoints))).
  assert (Hself : Terms.nearGem p (Rabs radius) p = Rltb 0 (Rabs radius)).
  { unfold Terms.nearGem. now rewrite dist_self. }
  rewrite Hself.
  destruct (Rltb 0 (Rabs radius)) eqn:E.
  - replace (k + 1)%nat with (S k) by lia. simpl. lia.
  - rewrite Nat.add_0_r.
    apply Rltb_false in E.
    (* no anchor is at a distance below zero *)
    assert (Hk : k = 0%nat).
    { unfold k. clear k. induction (Terms.removeAt i allPoints) as [|q l IH].
      - reflexivity.
      - simpl. unfold Terms.nearGem at 1.
        replace (Rltb _ (Rabs radius)) with false; [exact IH|].
        symmetry. apply Rltb_false. unfold Terms.dist.
        pose proof (sqrt_pos
                      ((GoogleGem.pt_x q - GoogleGem.pt_x p)
                       * (GoogleGem.pt_x q - GoogleGem.pt_x p)
                       + (GoogleGem.pt_y q - GoogleGem.pt_y p)
                         * (GoogleGem.pt_y q - GoogleGem.pt_y p))).
        lra. }
    rewrite Hk. reflexivity.
Qed.

Lemma googlegem_calculateDensity_counts_others_witness :
  GoogleGem.calculateDensity
    (GoogleGem.mkPoint 0 0)
    [GoogleGem.mkPoint 3 4; GoogleGem.mkPoint 0 0] 6
  = List.length
      (filter (Terms.nearGem (GoogleGem.mkPoint 0 0) 6)
              (Terms.removeAt 1 [GoogleGem.mkPoint 3 4; GoogleGem.mkPoint 0 0])).
Proof.
  apply (googlegem_calculateDensity_counts_others
           [GoogleGem.mkPoint 3 4; GoogleGem.mkPoint 0 0] 1
           (GoogleGem.mkPoint 0 0) 6).
  - reflexivity.
  - lra.
Defined.

Lemma nearPart_filter (point : Part000.Point) (radius : R)
  (l : list Part000.Point) :
  filter
    (fun p =>
       Rltb (sqrt ((Part000.pt_x p - Part000.pt_x point) ^ 2
                   + (Part000.pt_y p - Part000.pt_y point) ^ 2))
            radius) l
  = filter (Terms.nearPart point radius) l.
Proof.
  apply filter_ext. intros p. unfold Terms.nearPart, Terms.dist.
  do 2 f_equal. ring.
Qed.

(** X14. The first variant's [calculateDensity] does not leave the anchor
    itself out: for [p] at index [i] of the list it returns the number of
    other anchors closer than [radius], plus one whenever the radius is
    positive; for a radius that is not positive it returns 0. *)
Theorem part000_calculateDensity_counts_self
  (allPoints : list Part000.Point) (i : nat) (p : Part000.Point)
  (radius : R) :
  nth_error allPoints i = Some p ->
  Part000.calculateDensity p allPoints radius
  = (List.length
       (filter (Terms.nearPart p radius) (Terms.removeAt i allPoints))
     + (if Rltb 0 radius then 1 else 0))%nat
  /\ (radius <= 0 -> Part000.calculateDensity p allPoints radius = 0%nat).
Proof.
  intros H. unfold Part000.calculateDensity. rewrite nearPart_filter.
  split.
  - rewrite (filter_length_split _ _ allPoints i p H).
    unfold Terms.nearPart at 2. now rewrite dist_self.
  - intros Hr. clear H.
    induction allPoints as [|q l IH]; [reflexivity|].
    simpl. unfold Terms.nearPart at 1.
    replace (Rltb _ radius) with false; [exact IH|].
    symmetry. apply Rltb_false. unfold Terms.dist.
    pose proof (sqrt_pos
                  ((Part000.pt_x q - Part000.pt_x p)
                   * (Part000.pt_x q - Part000.pt_x p)
                   + (Part000.pt_y q - Part000.pt_y p)
                     * (Part000.pt_y q - Part000.pt_y p))).
    lra.
Qed.

Lemma part000_calculateDensity_counts_self_witness :
  Part000.calculateDensity (Part000.mkPoint 0 0) [Part000.mkPoint 0 0] 5
  = (List.length
       (filter (Terms.nearPart (Part000.mkPoint 0 0) 5)
               (Terms.removeAt 0 [Part000.mkPoint 0 0]))
     + (if Rltb 0 5 then 1 else 0))%nat.
Proof.
  apply (part000_calculateDensity_counts_self
           [Part000.mkPoint 0 0] 0 (Part000.mkPoint 0 0) 5).
  reflexivity.
Defined.

(** ** [doLabelsOverlap] and [findBestLabelPosition] *)

Lemma Rltb_spec (x y : R) : reflect (x < y) (Rltb x y).
Proof.
  unfold Rltb. destruct (Rlt_dec x y); constructor; assumption.
Qed.

(** X15. The second variant's overlap test is symmetric in its two labels,
    and for sizes and padding that are not negative it holds exactly when the
    first rectangle, grown by the padding on every side, shares a point with
    the second. *)
Theorem googlegem_doLabelsOverlap_geometry
  (a b : GoogleGem.LabelPosition) (padding : R) :
  GoogleGem.doLabelsOverlap a b padding = GoogleGem.doLabelsOverlap b a padding
  /\ (0 <= padding ->
      0 <= GoogleGem.lp_width a -> 0 <= GoogleGem.lp_height a ->
      0 <= GoogleGem.lp_width b -> 0 <= GoogleGem.lp_height b ->
      (GoogleGem.doLabelsOverlap a b padding = true
       <-> exists u v,
             Terms.insideGem a padding u v /\ Terms.insideGem b 0 u v)).
Proof.
  unfold GoogleGem.doLabelsOverlap, Terms.insideGem.
  split.
  - f_equal.
    destruct (Rltb_spec (GoogleGem.lp_x a + GoogleGem.lp_width a / 2 + padding)
                        (GoogleGem.lp_x b - GoogleGem.lp_width b / 2));
    destruct (Rltb_spec (GoogleGem.lp_x b + GoogleGem.lp_width b / 2 + padding)
                        (GoogleGem.lp_x a - GoogleGem.lp_width a / 2));
    destruct (Rltb_spec (GoogleGem.lp_y a + GoogleGem.lp_height a / 2 + padding)
                        (GoogleGem.lp_y b - GoogleGem.lp_height b / 2));
    destruct (Rltb_spec (GoogleGem.lp_y b + GoogleGem.lp_height b / 2 + padding)
                        (GoogleGem.lp_y a - GoogleGem.lp_height a / 2));
    reflexivity.
  - intros Hp Hwa Hha Hwb Hhb.
    rewrite negb_true_iff, !orb_false_iff, !Rltb_false.
    split.
    + intros [[[H1 H2] H3] H4].
      exists (Rmax (GoogleGem.lp_x a - GoogleGem.lp_width a / 2 - padding)
                   (GoogleGem.lp_x b - GoogleGem.lp_width b / 2)),
             (Rmax (GoogleGem.lp_y a - GoogleGem.lp_height a / 2 - padding)
                   (GoogleGem.lp_y b - GoogleGem.lp_height b / 2)).
      unfold Rmax.
      destruct (Rle_dec _ _); destruct (Rle_dec _ _); repeat split; lra.
    + intros [u [v [[A1 [A2 [A3 A4]]] [B1 [B2 [B3 B4]]]]]].
      repeat split; lra.
Qed.

Lemma googlegem_doLabelsOverlap_geometry_witness :
  GoogleGem.doLabelsOverlap
    (GoogleGem.mkLabel "A" 0 0 10 4 0) (GoogleGem.mkLabel "B" 12 0 10 4 0) 3
  = true
  <-> exists u v,
        Terms.insideGem (GoogleGem.mkLabel "A" 0 0 10 4 0) 3 u v
        /\ Terms.insideGem (GoogleGem.mkLabel "B" 12 0 10 4 0) 0 u v.
Proof.
  apply (googlegem_doLabelsOverlap_geometry
           (GoogleGem.mkLabel "A" 0 0 10 4 0)
           (GoogleGem.mkLabel "B" 12 0 10 4 0) 3); simpl; lra.
Defined.

(** X16. The first variant's overlap test, on rectangles stored by their
    top-left corner, is symmetric as well and, for sizes and padding that are
    not negative, holds exactly when the first rectangle grown by the padding
    shares a point with the second. *)
Theorem part000_doLabelsOverlap_geometry
  (a b : Part000.LabelPosition) (padding : R) :
  Part000.doLabelsOverlap a b padding = Part000.doLabelsOverlap b a padding
  /\ (0 <= padding ->
      0 <= Part000.lp_width a -> 0 <= Part000.lp_height a ->
      0 <= Part000.lp_width b -> 0 <= Part000.lp_height b ->
      (Part000.doLabelsOverlap a b padding = true
       <-> exists u v,
             Terms.insidePart a padding u v /\ Terms.insidePart b 0 u v)).
Proof.
  unfold Part000.doLabelsOverlap, Terms.insidePart.
  split.
  - f_equal.
    destruct (Rltb_spec (Part000.lp_x a + Part000.lp_width a + padding)
                        (Part000.lp_x b));
    destruct (Rltb_spec (Part000.lp_x b + Part000.lp_width b + padding)
                        (Part000.lp_x a));
    destruct (Rltb_spec (Part000.lp_y a + Part000.lp_height a + padding)
                        (Part000.lp_y b));
    destruct (Rltb_spec (Part000.lp_y b + Part000.lp_height b + padding)
                        (Part000.lp_y a));
    reflexivity.
  - intros Hp Hwa Hha Hwb Hhb.
    rewrite negb_true_iff, !orb_false_iff, !Rltb_false.
    split.
    + intros [[[H1 H2] H3] H4].
      exists (Rmax (Part000.lp_x a - padding) (Part000.lp_x b)),
             (Rmax (Part000.lp_y a - padding) (Part000.lp_y b)).
      unfold Rmax.
      destruct (Rle_dec _ _); destruct (Rle_dec _ _); repeat split; lra.
    + intros [u [v [[A1 [A2 [A3 A4]]] [B1 [B2 [B3 B4]]]]]].
      repeat split; lra.
Qed.

Lemma part000_doLabelsOverlap_geometry_witness :
  Part000.doLabelsOverlap
    (Part000.mkLabel "A" 0 0 10 4 0 None None)
    (Part000.mkLabel "B" 12 0 10 4 0 None None) 5
  = true
  <-> exists u v,
        Terms.insidePart (Part000.mkLabel "A" 0 0 10 4 0 None None) 5 u v
        /\ Terms.insidePart (Part000.mkLabel "B" 12 0 10 4 0 None None) 0 u v.
Proof.
  apply (part000_doLabelsOverlap_geometry
           (Part000.mkLabel "A" 0 0 10 4 0 None None)
           (Part000.mkLabel "B" 12 0 10 4 0 None None) 5); simpl; lra.
Defined.









(** X19. With no existing label both variants take the first candidate, the
    position 15 pixels above the base point; and both fail when an existing
    label is large enough to cover all twelve candidates. *)
Theorem findBestLabelPosition_edge_cases
  (baseX baseY : R) (label : string) (fontSize padding : R) :
  (exists pos,
      GoogleGem.findBestLabelPosition baseX baseY label [] fontSize padding
      = Some pos
      /\ GoogleGem.pt_x pos = baseX /\ GoogleGem.pt_y pos = baseY - 15)
  /\ Part000.findBestLabelPosition baseX baseY label [] fontSize padding
     = Some (Part000.mkPoint baseX (baseY - 15))
  /\ (0 <= fontSize -> 0 <= padding ->
      GoogleGem.findBestLabelPosition
        baseX baseY label [GoogleGem.mkLabel label baseX baseY 50 50 0]
        fontSize padding = None
      /\ Part000.findBestLabelPosition
           baseX baseY label
           [Part000.mkLabel label (baseX - 25) (baseY - 25) 50 50 0 None None]
           fontSize padding = None).
Proof.
  split.
  { eexists. split; [reflexivity|]. simpl. split; ring. }
  split; [reflexivity|].
  intros Hf Hp.
  assert (Hw : 0 <= INR (String.length label) * fontSize * 0.6).
  { pose proof (pos_INR (String.length label)). nra. }
  split.
  - unfold GoogleGem.findBestLabelPosition, GoogleGem.potentialPositions,
      GoogleGem.potentialOffsets, GoogleGem.doLabelsOverlap,
      GoogleGem.newLabelRect, GoogleGem.labelWidth, GoogleGem.labelHeight.
    simpl.
    repeat (rewrite (proj2 (Rltb_false _ _)) by lra; simpl).
    reflexivity.
  - unfold Part000.findBestLabelPosition, Part000.positions,
      Part000.doLabelsOverlap, Part000.newLabel, Part000.labelWidth,
      Part000.labelHeight.
    simpl.
    repeat (rewrite (proj2 (Rltb_false _ _)) by lra; simpl).
    reflexivity.
Qed.

Lemma findBestLabelPosition_edge_cases_witness :
  GoogleGem.findBestLabelPosition
    0 0 "ABX" [GoogleGem.mkLabel "ABX" 0 0 50 50 0] 10 5 = None.
Proof.
  apply (findBestLabelPosition_edge_cases 0 0 "ABX" 10 5); lra.
Defined.

(** ** [transformedData] *)











(** X22. The first variant tests only for [null]: under three linear scales
    it keeps every record none of whose values is [null], so also one whose
    value is [undefined], [NaN] or an infinity; the second variant keeps
    such a record only when all three values are finite numbers. *)
Theorem part000_keeps_non_finite
  (Company : Type) (c : Company) (x y z : jsval) :
  x <> Null -> y <> Null -> z <> Null ->
  Part000.keep Company linear linear linear (Part000.mkRaw x y z c) = true
  /\ (GoogleGem.keep Company linear linear linear (GoogleGem.mkRaw x y z c)
      = true
      <-> isFinite x = true /\ isFinite y = true /\ isFinite z = true).
Proof.
  intros Hx Hy Hz. split.
  - unfold Part000.keep. simpl.
    destruct x; destruct y; destruct z; try reflexivity; contradiction.
  - unfold GoogleGem.keep. simpl.
    destruct x as [| |[| | |rx]]; destruct y as [| |[| | |ry]];
      destruct z as [| |[| | |rz]]; try contradiction; simpl;
      intuition congruence.
Qed.

Lemma part000_keeps_non_finite_witness :
  Part000.keep nat linear linear linear
    (Part000.mkRaw Undefined (Num NaN) (Num NegInf) 0%nat) = true.
Proof.
  apply (part000_keeps_non_finite nat 0%nat Undefined (Num NaN) (Num NegInf));
    discriminate.
Defined.

(** ** [labelElements] *)

(** X23. The second variant draws every simulated label, in order: the
    [i]-th group carries the label's id and text and a background rectangle
    centred on the label, and it has a leader line, from the data point to
    the label centre, exactly when the label sits more than 5 pixels from
    its data point. *)
Theorem googlegem_labelElements_leader_line
  (simulatedLabels : list GoogleGem.SimulatedLabel) (i : nat)
  (label : GoogleGem.SimulatedLabel) :
  nth_error simulatedLabels i = Some label ->
  List.length (GoogleGem.labelElements simulatedLabels)
  = List.length simulatedLabels
  /\ exists g,
      nth_error (GoogleGem.labelElements simulatedLabels) i = Some g
      /\ GoogleGem.key g = GoogleGem.sl_id label
      /\ GoogleGem.text_body (GoogleGem.text g) = GoogleGem.sl_text label
      /\ GoogleGem.rect_x (GoogleGem.rect g)
         + GoogleGem.rect_width (GoogleGem.rect g) / 2
         = GoogleGem.sl_x label
      /\ GoogleGem.rect_y (GoogleGem.rect g)
         + GoogleGem.rect_height (GoogleGem.rect g) / 2
         = GoogleGem.sl_y label
      /\ (5 < Terms.dist (GoogleGem.sl_x label) (GoogleGem.sl_y label)
                         (GoogleGem.sl_dataX label) (GoogleGem.sl_dataY label)
          -> GoogleGem.line g
             = Some (GoogleGem.mkLine (GoogleGem.sl_dataX label)
                                      (GoogleGem.sl_dataY label)
                                      (GoogleGem.sl_x label)
                                      (GoogleGem.sl_y label)))
      /\ (Terms.dist (GoogleGem.sl_x label) (GoogleGem.sl_y label)
                     (GoogleGem.sl_dataX label) (GoogleGem.sl_dataY label)
          <= 5
          -> GoogleGem.line g = None).
Proof.
  intros H. unfold GoogleGem.labelElements.
  split; [apply length_map|].
  exists (GoogleGem.renderLabel label).
  split; [now rewrite nth_error_map, H|].
  unfold GoogleGem.renderLabel, GoogleGem.shouldShowLine. simpl.
  change (GoogleGem.distance label)
    with (Terms.dist (GoogleGem.sl_x label) (GoogleGem.sl_y label)
                     (GoogleGem.sl_dataX label) (GoogleGem.sl_dataY label)).
  split; [reflexivity|]. split; [reflexivity|].
  split; [field|]. split; [field|].
  split; intros Hd.
  - now rewrite (proj2 (Rltb_true _ _) Hd).
  - now rewrite (proj2 (Rltb_false _ _) Hd).
Qed.

Lemma googlegem_labelElements_leader_line_witness :
  List.length
    (GoogleGem.labelElements [GoogleGem.mkSim "ABX_1" "ABX" 100 90 18 14 100 95])
  = List.length [GoogleGem.mkSim "ABX_1" "ABX" 100 90 18 14 100 95].
Proof.
  apply (googlegem_labelElements_leader_line
           [GoogleGem.mkSim "ABX_1" "ABX" 100 90 18 14 100 95] 0
           (GoogleGem.mkSim "ABX_1" "ABX" 100 90 18 14 100 95)).
  reflexivity.
Defined.




(** ** More on the zoom handlers *)

Lemma zoom_in_stays_at_max (n : nat) :
  Zoom.run (repeat Zoom.ZoomIn n) 5 = 5.
Proof.
  induction n as [|n IH]; [reflexivity|].
  simpl. unfold Zoom.handleZoomIn. rewrite Rmin_right by lra. exact IH.
Qed.

Lemma zoom_out_stays_at_min (n : nat) :
  Zoom.run (repeat Zoom.ZoomOut n) 0.5 = 0.5.
Proof.
  induction n as [|n IH]; [reflexivity|].
  simpl. unfold Zoom.handleZoomOut. rewrite Rmax_right by lra. exact IH.
Qed.

Lemma zoom_in_nine : Zoom.run (repeat Zoom.ZoomIn 9) Zoom.initial = 5.
Proof.
  unfold Zoom.run, Zoom.initial. simpl. unfold Zoom.handleZoomIn.
  repeat match goal with
         | |- context [Rmin ?a 5] =>
             lazymatch a with
             | context [Rmin] => fail
             | _ => first [ rewrite (Rmin_left a 5) by lra
                          | rewrite (Rmin_right a 5) by lra ]
             end
         end.
  reflexivity.
Qed.

Lemma zoom_out_four : Zoom.run (repeat Zoom.ZoomOut 4) Zoom.initial = 0.5.
Proof.
  unfold Zoom.run, Zoom.initial. simpl. unfold Zoom.handleZoomOut.
  repeat match goal with
         | |- context [Rmax ?a 0.5] =>
             lazymatch a with
             | context [Rmax] => fail
             | _ => first [ rewrite (Rmax_left a 0.5) by lra
                          | rewrite (Rmax_right a 0.5) by lra ]
             end
         end.
  reflexivity.
Qed.

Ltac zoom_in_eval :=
  unfold Zoom.run, Zoom.initial; simpl; unfold Zoom.handleZoomIn;
  repeat match goal with
         | |- context [Rmin ?a 5] =>
             lazymatch a with
             | context [Rmin] => fail
             | _ => rewrite (Rmin_left a 5) by lra
             end
         end.

Ltac zoom_out_eval :=
  unfold Zoom.run, Zoom.initial; simpl; unfold Zoom.handleZoomOut;
  repeat match goal with
         | |- context [Rmax ?a 0.5] =>
             lazymatch a with
             | context [Rmax] => fail
             | _ => rewrite (Rmax_left a 0.5) by lra
             end
         end.

Lemma zoom_in_below_max (n : nat) :
  (n < 9)%nat -> Zoom.run (repeat Zoom.ZoomIn n) Zoom.initial < 5.
Proof.
  intros Hn.
  do 9 (destruct n as [|n]; [zoom_in_eval; lra|]).
  lia.
Qed.

Lemma zoom_out_above_min (n : nat) :
  (n < 4)%nat -> 0.5 < Zoom.run (repeat Zoom.ZoomOut n) Zoom.initial.
Proof.
  intros Hn.
  do 4 (destruct n as [|n]; [zoom_out_eval; lra|]).
  lia.
Qed.

(** X26. From the initial zoom 1, [n] clicks on zoom-in give the maximum 5
    exactly when [n] is at least 9: the first eight clicks stay below 5, the
    ninth reaches it and every further one stays there.  Likewise [n] clicks
    on zoom-out give the minimum 0.5 exactly when [n] is at least 4. *)
Theorem zoom_saturates (n : nat) :
  (Zoom.run (repeat Zoom.ZoomIn n) Zoom.initial = 5 <-> (9 <= n)%nat)
  /\ (Zoom.run (repeat Zoom.ZoomOut n) Zoom.initial = 0.5 <-> (4 <= n)%nat).
Proof.
  split; split.
  - intros E. destruct (Nat.le_gt_cases 9 n) as [H | H]; [exact H|].
    pose proof (zoom_in_below_max n H). lra.
  - intros Hn. replace n with (9 + (n - 9))%nat by lia.
    rewrite repeat_app. unfold Zoom.run. rewrite fold_left_app.
    fold (Zoom.run (repeat Zoom.ZoomIn 9) Zoom.initial).
    rewrite zoom_in_nine. apply zoom_in_stays_at_max.
  - intros E. destruct (Nat.le_gt_cases 4 n) as [H | H]; [exact H|].
    pose proof (zoom_out_above_min n H). lra.
  - intros Hn. replace n with (4 + (n - 4))%nat by lia.
    rewrite repeat_app. unfold Zoom.run. rewrite fold_left_app.
    fold (Zoom.run (repeat Zoom.ZoomOut 4) Zoom.initial).
    rewrite zoom_out_four. apply zoom_out_stays_at_min.
Qed.

(** ** More on [normalizeValues] *)

Lemma clamp01_monotone (s t : R) :
  s <= t -> GoogleGem.clamp01 s <= GoogleGem.clamp01 t.
Proof.
  intros H. unfold GoogleGem.clamp01, Rmax, Rmin.
  repeat destruct (Rle_dec _ _); lra.
Qed.

Lemma frac_monotone (lo hi v1 v2 : R) :
  lo < hi -> v1 <= v2 -> (v1 - lo) / (hi - lo) <= (v2 - lo) / (hi - lo).
Proof.
  intros Hd Hv. unfold Rdiv. apply Rmult_le_compat_r; [|lra].
  left. apply Rinv_0_lt_compat. lra.
Qed.

Lemma log10_monotone (a b : R) : 0 < a -> a <= b -> log10 a <= log10 b.
Proof.
  intros Ha [Hlt | ->]; [left; now apply log10_increasing | apply Rle_refl].
Qed.

Lemma log10_injective (a b : R) : 0 < a -> 0 < b -> log10 a = log10 b -> a = b.
Proof.
  intros Ha Hb E.
  destruct (Rtotal_order a b) as [H | [H | H]]; [|exact H|].
  - pose proof (log10_increasing a b Ha H). lra.
  - pose proof (log10_increasing b a Hb H). lra.
Qed.

(** X27. The second variant's normalizer preserves the order of its finite
    inputs, under either scale mode: if [a <= b] are two finite inputs, the
    value returned for [a] is at most the value returned for [b]. *)
Theorem googlegem_normalizeValues_monotone
  (values : list jsval) (scale : JS.scale) (i j : nat) (a b : R) :
  nth_error values i = Some (Num (Fin a)) ->
  nth_error values j = Some (Num (Fin b)) ->
  a <= b ->
  exists na nb,
    nth_error (GoogleGem.normalizeValues values scale) i = Some na
    /\ nth_error (GoogleGem.normalizeValues values scale) j = Some nb
    /\ na <= nb.
Proof.
  intros Hi Hj Hab.
  assert (Hin : In a (finiteValues values))
    by (apply finiteValues_In; eapply nth_error_In; eauto).
  unfold GoogleGem.normalizeValues.
  destruct values as [|v0 vs]; [now destruct i|].
  set (values := v0 :: vs) in *.
  destruct (finiteValues values) as [|f0 fs]; [destruct Hin|].
  destruct scale.
  - destruct (Reqb (Math_min f0 fs) (Math_max f0 fs)) eqn:E.
    + rewrite !nth_error_map, Hi, Hj. simpl.
      exists 0.5, 0.5. repeat split; lra.
    + apply Reqb_false in E. pose proof (Math_min_le_max f0 fs).
      rewrite !nth_error_map, Hi, Hj. simpl.
      eexists _, _. split; [reflexivity|]. split; [reflexivity|].
      apply clamp01_monotone, frac_monotone; lra.
  - assert (Hhalf : GoogleGem.halfIfPositive (Num (Fin a))
                    <= GoogleGem.halfIfPositive (Num (Fin b))).
    { unfold GoogleGem.halfIfPositive. simpl.
      destruct (Rltb 0 a) eqn:Ea; destruct (Rltb 0 b) eqn:Eb; try lra.
      apply Rltb_true in Ea. apply Rltb_false in Eb. lra. }
    destruct (positiveValues (f0 :: fs)) as [|p0 ps] eqn:Ep.
    { rewrite !nth_error_map, Hi, Hj. simpl.
      eexists _, _. split; [reflexivity|]. split; [reflexivity|]. exact Hhalf. }
    destruct (Reqb (log10 (Math_min p0 ps)) (log10 (Math_max p0 ps))) eqn:E.
    { rewrite !nth_error_map, Hi, Hj. simpl.
      eexists _, _. split; [reflexivity|]. split; [reflexivity|]. exact Hhalf. }
    apply Reqb_false in E.
    assert (Hmin : 0 < Math_min p0 ps).
    { pose proof (Math_min_In ps p0) as H. rewrite <- Ep in H.
      now apply positiveValues_In in H. }
    assert (Hlt : log10 (Math_min p0 ps) < log10 (Math_max p0 ps)).
    { pose proof (log10_monotone _ _ Hmin (Math_min_le_max p0 ps)). lra. }
    rewrite !nth_error_map, Hi, Hj. simpl.
    eexists _, _. split; [reflexivity|]. split; [reflexivity|].
    destruct (Rleb a 0) eqn:Ea; destruct (Rleb b 0) eqn:Eb.
    + lra.
    + apply clamp01_in01.
    + apply Rleb_false in Ea. apply Rleb_true in Eb. lra.
    + apply Rleb_false in Ea.
      apply clamp01_monotone, frac_monotone; [exact Hlt|].
      now apply log10_monotone.
Qed.

Lemma googlegem_normalizeValues_monotone_witness :
  exists na nb,
    nth_error (GoogleGem.normalizeValues
                 [Num (Fin 1); Num (Fin 10); Num (Fin 100)] log) 0 = Some na
    /\ nth_error (GoogleGem.normalizeValues
                    [Num (Fin 1); Num (Fin 10); Num (Fin 100)] log) 1 = Some nb
    /\ na <= nb.
Proof.
  apply (googlegem_normalizeValues_monotone
           [Num (Fin 1); Num (Fin 10); Num (Fin 100)] log 0 1 1 10);
    [reflexivity | reflexivity | lra].
Defined.

(** X28. When the finite inputs are not all equal, the second variant's
    linear normalizer returns 0 for the least finite input and 1 for the
    greatest; under log scale it does so for the least and the greatest
    positive input when those differ. *)
Theorem googlegem_normalizeValues_extremes
  (values : list jsval) (i : nat) (m M : R) :
  m < M ->
  (Terms.isMin m (finiteValues values) ->
   Terms.isMax M (finiteValues values) ->
   (nth_error values i = Some (Num (Fin m)) ->
    nth_error (GoogleGem.normalizeValues values linear) i = Some 0)
   /\ (nth_error values i = Some (Num (Fin M)) ->
       nth_error (GoogleGem.normalizeValues values linear) i = Some 1))
  /\ (Terms.isMin m (positiveValues (finiteValues values)) ->
      Terms.isMax M (positiveValues (finiteValues values)) ->
      (nth_error values i = Some (Num (Fin m)) ->
       nth_error (GoogleGem.normalizeValues values log) i = Some 0)
      /\ (nth_error values i = Some (Num (Fin M)) ->
          nth_error (GoogleGem.normalizeValues values log) i = Some 1)).
Proof.
  intros HmM. unfold GoogleGem.normalizeValues. split.
  - intros Hm HMx.
    destruct values as [|v0 vs]; [destruct Hm as [[] _]|].
    set (values := v0 :: vs) in *.
    destruct (finiteValues values) as [|f0 fs]; [destruct Hm as [[] _]|].
    rewrite (isMin_Math_min m f0 fs Hm), (isMax_Math_max M f0 fs HMx).
    replace (Reqb m M) with false by (symmetry; apply Reqb_false; lra).
    split; intros Hi; rewrite nth_error_map, Hi; simpl; f_equal.
    + replace ((m - m) / (M - m)) with 0 by (field; lra).
      apply clamp01_id. lra.
    + replace ((M - m) / (M - m)) with 1 by (field; lra).
      apply clamp01_id. lra.
  - intros Hm HMx.
    destruct values as [|v0 vs]; [destruct Hm as [[] _]|].
    set (values := v0 :: vs) in *.
    destruct (finiteValues values) as [|f0 fs]; [destruct Hm as [[] _]|].
    assert (Hpos : 0 < m).
    { destruct Hm as [H _]. now apply positiveValues_In in H. }
    destruct (positiveValues (f0 :: fs)) as [|p0 ps]; [destruct Hm as [[] _]|].
    rewrite (isMin_Math_min m p0 ps Hm), (isMax_Math_max M p0 ps HMx).
    pose proof (log10_increasing m M Hpos HmM) as Hlog.
    replace (Reqb (log10 m) (log10 M)) with false
      by (symmetry; apply Reqb_false; lra).
    split; intros Hi; rewrite nth_error_map, Hi; simpl.
    + replace (Rleb m 0) with false by (symmetry; apply Rleb_false; lra).
      f_equal.
      replace ((log10 m - log10 m) / (log10 M - log10 m)) with 0
        by (field; lra).
      apply clamp01_id. lra.
    + replace (Rleb M 0) with false by (symmetry; apply Rleb_false; lra).
      f_equal.
      replace ((log10 M - log10 m) / (log10 M - log10 m)) with 1
        by (field; lra).
      apply clamp01_id. lra.
Qed.

Lemma isMin_2_of_2_4 : Terms.isMin 2 [2; 4].
Proof.
  split; [now left | intros x [<- | [<- | []]]; lra].
Defined.

Lemma isMax_4_of_2_4 : Terms.isMax 4 [2; 4].
Proof.
  split; [right; now left | intros x [<- | [<- | []]]; lra].
Defined.

Lemma googlegem_normalizeValues_extremes_witness :
  nth_error (GoogleGem.normalizeValues [Num (Fin 2); Num (Fin 4)] linear) 1
  = Some 1.
Proof.
  assert (H : 2 < 4) by lra.
  apply (proj2 (proj1 (googlegem_normalizeValues_extremes
                         [Num (Fin 2); Num (Fin 4)] 1 2 4 H)
                      isMin_2_of_2_4 isMax_4_of_2_4)).
  reflexivity.
Defined.

Lemma part000_rescale_monotone (l0 : R) (ls : list R) (a b : R) :
  a <= b ->
  (if Reqb (Math_max l0 ls) (Math_min l0 ls) then 0
   else (a - Math_min l0 ls) / (Math_max l0 ls - Math_min l0 ls))
  <= (if Reqb (Math_max l0 ls) (Math_min l0 ls) then 0
      else (b - Math_min l0 ls) / (Math_max l0 ls - Math_min l0 ls)).
Proof.
  intros Hab. destruct (Reqb _ _) eqn:E; [lra|].
  apply Reqb_false in E. pose proof (Math_min_le_max l0 ls).
  apply frac_monotone; lra.
Qed.

(** X29. On a list of finite numbers the first variant's normalizer
    preserves the order of its inputs under either scale mode, and under log
    scale it floors them at 1: any two inputs that are at most 1 receive the
    same normalized value. *)
Theorem part000_normalizeValues_monotone_floor
  (values : list R) (i j : nat) (a b : R) :
  nth_error values i = Some a ->
  nth_error values j = Some b ->
  (forall scale,
      a <= b ->
      exists na nb,
        nth_error (Part000.normalizeValues values scale) i = Some na
        /\ nth_error (Part000.normalizeValues values scale) j = Some nb
        /\ na <= nb)
  /\ (a <= 1 -> b <= 1 ->
      nth_error (Part000.normalizeValues values log) i
      = nth_error (Part000.normalizeValues values log) j).
Proof.
  intros Hi Hj.
  destruct values as [|v0 vs]; [now destruct i|].
  split.
  - intros scale Hab. unfold Part000.normalizeValues.
    destruct scale; cbv zeta.
    + rewrite !nth_error_map, Hi, Hj. simpl.
      eexists _, _. split; [reflexivity|]. split; [reflexivity|].
      now apply part000_rescale_monotone.
    + rewrite !nth_error_map, Hi, Hj. simpl.
      eexists _, _. split; [reflexivity|]. split; [reflexivity|].
      apply (part000_rescale_monotone
               (ln (Rmax v0 1)) (map (fun v => ln (Rmax v 1)) vs)).
      assert (Ha : 1 <= Rmax a 1) by apply Rmax_r.
      destruct (Rle_lt_or_eq_dec (Rmax a 1) (Rmax b 1)) as [Hlt | ->].
      * apply Rle_max_compat_r. exact Hab.
      * left. apply ln_increasing; lra.
      * apply Rle_refl.
  - intros Ha Hb. unfold Part000.normalizeValues. cbv zeta.
    rewrite !nth_error_map, Hi, Hj. simpl.
    now rewrite (Rmax_right a 1), (Rmax_right b 1) by lra.
Qed.

Lemma part000_normalizeValues_monotone_floor_witness :
  nth_error (Part000.normalizeValues [0.2; 1; 50] log) 0
  = nth_error (Part000.normalizeValues [0.2; 1; 50] log) 1.
Proof.
  apply (proj2 (part000_normalizeValues_monotone_floor
                  [0.2; 1; 50] 0 1 0.2 1 eq_refl eq_refl)); lra.
Defined.

Lemma finiteValues_ex (values : list jsval) :
  finiteValues values <> [] <-> exists r, In (Num (Fin r)) values.
Proof.
  split.
  - destruct (finiteValues values) as [|f fs] eqn:E; [congruence|].
    intros _. exists f. apply finiteValues_In_inv. rewrite E. now left.
  - intros [r Hr] E. apply finiteValues_In in Hr. now rewrite E in Hr.
Qed.

(** X30. The second variant's normalizer answers one value per input; an
    input that is not a finite number gets 0 as soon as some input is finite,
    and every input gets 0.5 when none is. *)
Theorem googlegem_normalizeValues_non_finite
  (values : list jsval) (scale : JS.scale) :
  List.length (GoogleGem.normalizeValues values scale) = List.length values
  /\ (forall i v,
         nth_error values i = Some v -> isFinite v = false ->
         (exists r, In (Num (Fin r)) values) ->
         nth_error (GoogleGem.normalizeValues values scale) i = Some 0)
  /\ ((forall r, ~ In (Num (Fin r)) values) ->
      GoogleGem.normalizeValues values scale = map (fun _ => 0.5) values).
Proof.
  unfold GoogleGem.normalizeValues.
  split; [|split].
  - destruct values as [|v0 vs]; [reflexivity|].
    destruct (finiteValues (v0 :: vs)); [apply length_map|].
    destruct scale.
    + destruct (Reqb _ _); apply length_map.
    + destruct (positiveValues _); [apply length_map|].
      destruct (Reqb _ _); apply length_map.
  - intros i v Hi Hv Hex. apply finiteValues_ex in Hex.
    assert (Hfo : finite_of v = None).
    { unfold isFinite in Hv. now destruct (finite_of v). }
    destruct values as [|v0 vs]; [now destruct i|].
    set (values := v0 :: vs) in *.
    destruct (finiteValues values) as [|f0 fs]; [congruence|].
    destruct scale.
    + destruct (Reqb _ _); rewrite nth_error_map, Hi; simpl.
      * now rewrite Hv.
      * now rewrite Hfo.
    + assert (Hh : GoogleGem.halfIfPositive v = 0).
      { unfold GoogleGem.halfIfPositive. now rewrite Hv. }
      destruct (positiveValues _).
      { rewrite nth_error_map, Hi. simpl. now rewrite Hh. }
      destruct (Reqb _ _); rewrite nth_error_map, Hi; simpl.
      * now rewrite Hh.
      * now rewrite Hfo.
  - intros Hnone.
    destruct values as [|v0 vs]; [reflexivity|].
    destruct (finiteValues (v0 :: vs)) as [|f0 fs] eqn:E; [reflexivity|].
    exfalso. apply (Hnone f0). apply finiteValues_In_inv. rewrite E. now left.
Qed.

Lemma googlegem_normalizeValues_non_finite_witness :
  nth_error (GoogleGem.normalizeValues [Num NaN; Num (Fin 3)] linear) 0
  = Some 0.
Proof.
  apply (proj1 (proj2 (googlegem_normalizeValues_non_finite
                         [Num NaN; Num (Fin 3)] linear)) 0%nat (Num NaN)).
  - reflexivity.
  - reflexivity.
  - exists 3. right. left. reflexivity.
Defined.
